(** * krabba-client: the request/response pipeline of [src/index.ts]

    A shallow embedding of the [Client] class: the three private
    serializers, the response decoder, the shared [#request] pipeline and
    the four verb methods, followed by the properties of the specification
    that were checked against them.

    Conventions of the embedding.
    - A JavaScript object used as a map ([content], [path], [query]) is the
      list of its own enumerable string-keyed entries, in the order
      [Object.keys] / [Object.entries] yields them.
    - A promise is its outcome: [Ok v] for a resolved one, [Throw e] for a
      rejected one; [await] is the bind of the monad below.
    - Values are data: numbers are the integer-valued ones (plain decimal
      rendering); functions and objects with methods of their own
      ([toString], [toJSON], getters) are outside the model.
    - Objects that the code mutates live in a heap and are passed by
      reference. *)

From Stdlib Require Import ZArith String Ascii List DecimalString.
From stdpp Require Import base option list gmap strings.
Import ListNotations.

(* ================================================================== *)
(** ** JavaScript values and outcomes *)
(* ================================================================== *)

#[local] Set Warnings "-register-all".

(** Values that can be stored in the maps of a call.  [JSymbol] is the
    primitive on which string coercion throws, [JBigInt] the one on which
    [JSON.stringify] throws. *)
Inductive JsValue : Type :=
| JUndefined
| JNull
| JBool (b : bool)
| JNum (z : Z)
| JStr (s : string)
| JBigInt (z : Z)
| JSymbol (description : string)
| JArr (items : list JsValue)
| JObj (props : list (string * JsValue)).

Inductive Exn : Type :=
| TypeError
| SyntaxError
| UserError (tag : string).

Inductive Result (A : Type) : Type :=
| Ok (a : A)
| Throw (e : Exn).
Arguments Ok {A} a.
Arguments Throw {A} e.

Module Res.
Definition bind {A B} (r : Result A) (k : A -> Result B) : Result B :=
  match r with
  | Ok a => k a
  | Throw e => Throw e
  end.

(** [try { body } catch (e) { handler }] *)
Definition try_catch {A} (body : Result A) (handler : Exn -> Result A) : Result A :=
  match body with
  | Ok a => Ok a
  | Throw e => handler e
  end.
End Res.

#[global] Instance Result_bind : MBind Result := fun _ _ k r => Res.bind r k.
#[global] Instance Result_ret : MRet Result := fun _ a => Ok a.

(** An object used as a map: own enumerable entries in iteration order. *)
Definition JsMap : Type := list (string * JsValue).

(** [Object.keys(m)] *)
Definition Object_keys (m : JsMap) : list string := map fst m.

(** [m[key]]: the property stored under [key], [undefined] when there is none. *)
Fixpoint get_prop (m : JsMap) (key : string) : JsValue :=
  match m with
  | [] => JUndefined
  | (k, v) :: rest => if String.eqb k key then v else get_prop rest key
  end.

(** [x || {}] on an optional map argument. *)
Definition or_empty (m : option JsMap) : JsMap :=
  match m with
  | Some entries => entries
  | None => []
  end.

(** Truthiness ([ToBoolean]). *)
Definition truthy (v : JsValue) : bool :=
  match v with
  | JUndefined | JNull => false
  | JBool b => b
  | JNum z | JBigInt z => negb (Z.eqb z 0)
  | JStr s => negb (String.eqb s "")
  | JSymbol _ | JArr _ | JObj _ => true
  end.

(* ================================================================== *)
(** ** Strings: the builtins the serializers call *)
(* ================================================================== *)

Definition dquote : ascii := "034"%char.
Definition backslash : ascii := "092"%char.
Definition dollar : ascii := "036"%char.

Definition str1 (c : ascii) : string := String c EmptyString.

(** The decimal rendering of an integer.  It is [Number::toString] on the
    safe integers (magnitude below 2^53), the numbers of this model; past
    them JavaScript rounds the digits and, from 1e21 on, switches to the
    exponent notation, which is not modelled. *)
Definition Z_to_string (z : Z) : string :=
  NilEmpty.string_of_int (Z.to_int z).

Fixpoint join (sep : string) (parts : list string) : string :=
  match parts with
  | [] => ""
  | [p] => p
  | p :: rest => p +:+ sep +:+ join sep rest
  end.

(** [s.slice(0, -1)]: [s] without its last character. *)
Fixpoint slice_0_m1 (s : string) : string :=
  match s with
  | EmptyString => EmptyString
  | String c EmptyString => EmptyString
  | String c rest => String c (slice_0_m1 rest)
  end.

(** [strip_prefix p s] is [Some rest] when [s = p ++ rest]. *)
Fixpoint strip_prefix (p s : string) : option string :=
  match p, s with
  | EmptyString, _ => Some s
  | String _ _, EmptyString => None
  | String a p', String b s' =>
      if Ascii.eqb a b then strip_prefix p' s' else None
  end.

(** The first occurrence of [pat] in [s]: the text before it and the text
    after it. *)
Fixpoint split_first (pat s : string) : option (string * string) :=
  match strip_prefix pat s with
  | Some post => Some (EmptyString, post)
  | None =>
      match s with
      | EmptyString => None
      | String c s' =>
          match split_first pat s' with
          | Some (pre, post) => Some (String c pre, post)
          | None => None
          end
      end
  end.

(** [GetSubstitution] for a string pattern (no capture groups): in the
    replacement text [$$] stands for a dollar sign, [$&] for the matched
    text, [$`] for the text before the match and [$'] for the text after
    it; any other character, a dollar sign included, stands for itself. *)
Fixpoint getSubstitution (matched pre post replacement : string) : string :=
  match replacement with
  | EmptyString => EmptyString
  | String c r1 =>
      if Ascii.eqb c dollar then
        match r1 with
        | EmptyString => str1 c
        | String d r2 =>
            if Ascii.eqb d dollar then String dollar (getSubstitution matched pre post r2)
            else if Ascii.eqb d "&"%char then matched +:+ getSubstitution matched pre post r2
            else if Ascii.eqb d "`"%char then pre +:+ getSubstitution matched pre post r2
            else if Ascii.eqb d "'"%char then post +:+ getSubstitution matched pre post r2
            else String c (getSubstitution matched pre post r1)
        end
      else String c (getSubstitution matched pre post r1)
  end.

(** [ToString]: the coercion of template literals and of the arguments of
    [String.prototype.replace].  It throws a [TypeError] on a symbol. *)
Fixpoint ToString (v : JsValue) : Result string :=
  match v with
  | JUndefined => Ok "undefined"
  | JNull => Ok "null"
  | JBool true => Ok "true"
  | JBool false => Ok "false"
  | JNum z => Ok (Z_to_string z)
  | JStr s => Ok s
  | JBigInt z => Ok (Z_to_string z)
  | JSymbol _ => Throw TypeError
  | JArr items =>
      (* Array.prototype.join(","): undefined and null items give "" *)
      let fix items_to_strings (l : list JsValue) : Result (list string) :=
        match l with
        | [] => Ok []
        | x :: rest =>
            Res.bind
              (match x with
               | JUndefined | JNull => Ok ""
               | _ => ToString x
               end)
              (fun s => Res.bind (items_to_strings rest) (fun ss => Ok (s :: ss)))
        end in
      Res.bind (items_to_strings items) (fun ss => Ok (join "," ss))
  | JObj _ => Ok "[object Object]"
  end.

(** [s.replace(pattern, replaceValue)] with a string pattern and a
    replacement that is not a function: the replacement is coerced first,
    then the first occurrence of the pattern, if any, is replaced by the
    expansion of the replacement. *)
Definition String_replace (s pattern : string) (replaceValue : JsValue) : Result string :=
  Res.bind (ToString replaceValue) (fun replacement =>
    Ok (match split_first pattern s with
        | None => s
        | Some (pre, post) =>
            pre +:+ getSubstitution pattern pre post replacement +:+ post
        end)).

(** [JSON.stringify]'s quoting of a string: the quote, the backslash and
    the control characters are escaped. *)
Definition hex_digit (n : nat) : ascii :=
  match n with
  | 0 => "0" | 1 => "1" | 2 => "2" | 3 => "3" | 4 => "4" | 5 => "5"
  | 6 => "6" | 7 => "7" | 8 => "8" | 9 => "9" | 10 => "a" | 11 => "b"
  | 12 => "c" | 13 => "d" | 14 => "e" | _ => "f"
  end%char.

Definition json_escape_char (c : ascii) : string :=
  let n := nat_of_ascii c in
  if Nat.eqb n 34 then String backslash (str1 dquote)
  else if Nat.eqb n 92 then String backslash (str1 backslash)
  else if Nat.eqb n 8 then String backslash "b"
  else if Nat.eqb n 9 then String backslash "t"
  else if Nat.eqb n 10 then String backslash "n"
  else if Nat.eqb n 12 then String backslash "f"
  else if Nat.eqb n 13 then String backslash "r"
  else if Nat.ltb n 32 then
    String backslash ("u00" +:+ String (hex_digit (n / 16)) (str1 (hex_digit (n mod 16))))
  else str1 c.

Fixpoint json_escape (s : string) : string :=
  match s with
  | EmptyString => EmptyString
  | String c rest => json_escape_char c +:+ json_escape rest
  end.

Definition json_quote (s : string) : string :=
  String dquote (json_escape s) +:+ str1 dquote.

(** [JSON.stringify(v)]: [Ok (Some text)] for a value with a JSON form,
    [Ok None] when the builtin returns [undefined] (an undefined value or a
    symbol at top level), [Throw TypeError] on a BigInt anywhere in the
    value.  Inside an array an undefined value or a symbol is rendered as
    [null]; inside an object such a property is left out. *)
Fixpoint JSON_stringify (v : JsValue) : Result (option string) :=
  match v with
  | JUndefined => Ok None
  | JNull => Ok (Some "null")
  | JBool true => Ok (Some "true")
  | JBool false => Ok (Some "false")
  | JNum z => Ok (Some (Z_to_string z))
  | JStr s => Ok (Some (json_quote s))
  | JBigInt _ => Throw TypeError
  | JSymbol _ => Ok None
  | JArr items =>
      let fix elements (l : list JsValue) : Result (list string) :=
        match l with
        | [] => Ok []
        | x :: rest =>
            Res.bind (JSON_stringify x) (fun o =>
            Res.bind (elements rest) (fun ss =>
            Ok (default "null" o :: ss)))
        end in
      Res.bind (elements items) (fun ss => Ok (Some ("[" +:+ join "," ss +:+ "]")))
  | JObj props =>
      let fix members (l : list (string * JsValue)) : Result (list string) :=
        match l with
        | [] => Ok []
        | (k, x) :: rest =>
            Res.bind (JSON_stringify x) (fun o =>
            Res.bind (members rest) (fun ss =>
            Ok (match o with
                | Some text => (json_quote k +:+ ":" +:+ text) :: ss
                | None => ss
                end)))
        end in
      Res.bind (members props) (fun ss => Ok (Some ("{" +:+ join "," ss +:+ "}")))
  end.

(* ================================================================== *)
(** ** The parameter serializers *)
(* ================================================================== *)

Module Serializer.

(** [entries.reduce(step, seed)] where [step] may throw. *)
Fixpoint reduce {A} (step : A -> string * JsValue -> Result A)
    (entries : JsMap) (acc : A) : Result A :=
  match entries with
  | [] => Ok acc
  | entry :: rest => acc' ← step acc entry; reduce step rest acc'
  end.

(** The callback of [#serializePathParams]:
    [acc.replace(`{${key}}`, value)]. *)
Definition path_step (acc : string) (entry : string * JsValue) : Result string :=
  let '(key, value) := entry in
  String_replace acc ("{" +:+ key +:+ "}") value.

(** The [try] block of [#serializePathParams]. *)
Definition serializePathParams_try (path : string) (params : option JsMap)
    : Result string :=
  reduce path_step (or_empty params) path.

Definition serializePathParams (path : string) (params : option JsMap)
    : Result string :=
  Res.try_catch (serializePathParams_try path params) (fun _ => Ok path).

(** The callback of [#serializeQueryParams]:
    [`${acc}${key}=${value}&`]. *)
Definition query_step (acc : string) (entry : string * JsValue) : Result string :=
  let '(key, value) := entry in
  v ← ToString value;
  Ok (acc +:+ key +:+ "=" +:+ v +:+ "&").

(** The [try] block of [#serializeQueryParams]. *)
Definition serializeQueryParams_try (query : option JsMap) : Result string :=
  acc ← reduce query_step (or_empty query) "?";
  Ok (slice_0_m1 acc).

Definition serializeQueryParams (query : option JsMap) : Result string :=
  Res.try_catch (serializeQueryParams_try query) (fun _ => Ok "").

Record SerializedBody : Type := {
  contentType : string;
  requestBody : option string  (* [None] is [undefined] *)
}.

(** [Object.keys(content || {})?.[0] || "application/json"]: the empty
    string is falsy, so an empty first key also gives the default. *)
Definition first_key_or_default (keys : list string) : string :=
  match keys with
  | k :: _ => if String.eqb k "" then "application/json" else k
  | [] => "application/json"
  end.

(** [content[contentType]]: a property read on [undefined] throws. *)
Definition read_content (content : option JsMap) (key : string) : Result JsValue :=
  match content with
  | Some m => Ok (get_prop m key)
  | None => Throw TypeError
  end.

(** The [try] block of [#serializeRequestBody]. *)
Definition serializeRequestBody_try (content : option JsMap) : Result SerializedBody :=
  let contentType := first_key_or_default (Object_keys (or_empty content)) in
  payload ← read_content content contentType;
  requestBody ← JSON_stringify (if truthy payload then payload else JObj []);
  Ok {| contentType := contentType; requestBody := requestBody |}.

Definition serializeRequestBody (content : option JsMap) : Result SerializedBody :=
  Res.try_catch (serializeRequestBody_try content) (fun _ =>
    requestBody ← JSON_stringify (JObj []);
    Ok {| contentType := "application/json"; requestBody := requestBody |}).
End Serializer.

(* ================================================================== *)
(** ** Request descriptors, responses and the world of a call *)
(* ================================================================== *)

(** A value of a plain headers object. *)
Inductive HeaderValue : Type :=
| HVStr (s : string)
| HVList (items : list string).

(** [RequestInit.headers] has type [HeadersInit]: a plain object, an
    instance of the [Headers] class, or an array of name/value pairs. *)
Inductive HeadersInit : Type :=
| PlainHeaders (entries : gmap string HeaderValue)
| HeadersInstance (entries : list (string * string))
| HeaderPairs (pairs : list (list string)).

(** The own enumerable properties that an object spread [{...h}] copies:
    those of a plain object; none for a [Headers] instance, which keeps its
    entries in internal slots; the indices for an array; none for
    [undefined]. *)
Fixpoint indexed_from (i : nat) (pairs : list (list string)) : gmap string HeaderValue :=
  match pairs with
  | [] => ∅
  | p :: rest => <[Z_to_string (Z.of_nat i) := HVList p]> (indexed_from (S i) rest)
  end.

Definition spread (h : option HeadersInit) : gmap string HeaderValue :=
  match h with
  | None => ∅
  | Some (PlainHeaders entries) => entries
  | Some (HeadersInstance _) => ∅
  | Some (HeaderPairs pairs) => indexed_from 0 pairs
  end.

(** [{ "Content-Type": contentType, ...callerHeaders }]: the spread is
    written last, so its entries win. *)
Definition headers_literal (contentType : string) (callerHeaders : option HeadersInit)
    : gmap string HeaderValue :=
  spread callerHeaders ∪ {[ "Content-Type" := HVStr contentType ]}.

(** The request descriptor ([RequestInit]); [other] holds the transport
    options the client does not touch. *)
Record RequestInit : Type := {
  method : option string;
  headers : option HeadersInit;
  body : option string;
  other : gmap string JsValue
}.

Definition empty_object : RequestInit :=
  {| method := None; headers := None; body := None; other := ∅ |}.

Record Response : Type := {
  Response_status : Z;
  Response_body : option string;     (* [null] when the response has no body *)
  Response_json : Result JsValue     (* the outcome of awaiting [json()] *)
}.

Record Envelope : Type := {
  data : JsValue;
  requestResponse : Response
}.

(** Descriptors are objects: they live in a heap and are passed by
    reference. *)
Abbreviation Ref := positive.

Record World : Type := {
  heap : gmap positive RequestInit;
  effects : list string              (* what hooks and transport did outside *)
}.

Definition deref (w : World) (r : Ref) : RequestInit :=
  default empty_object (heap w !! r).

(** The world in which the object at [r] is [o]. *)
Definition with_object (w : World) (r : Ref) (o : RequestInit) : World :=
  {| heap := <[r := o]> (heap w); effects := effects w |}.

Definition update (w : World) (r : Ref) (f : RequestInit -> RequestInit) : World :=
  with_object w r (f (deref w r)).

Definition Middleware : Type := string -> Ref -> World -> Result unit * World.
Definition Afterware : Type := Ref -> Response -> World -> Result unit * World.
Definition Fetcher : Type := string -> Ref -> World -> Result Response * World.

(** What a call did, in the order it did it.  Each event records the
    arguments of the invocation, the contents of the descriptor at that
    moment, and the outcome. *)
Inductive Event : Type :=
| EvMiddleware (i : nat) (info : string) (init : Ref) (seen : RequestInit)
    (outcome : Result unit)
| EvTransport (info : string) (init : Ref) (seen : RequestInit)
    (outcome : Result Response)
| EvAfterware (i : nat) (init : Ref) (seen : RequestInit) (response : Response)
    (outcome : Result unit)
| EvDecode (response : Response) (outcome : Result Envelope).

(** ** The monad of asynchronous code: state, rejection, and a log *)

Record Run (A : Type) : Type := {
  result : Result A;
  final : World;
  events : list Event
}.
Arguments result {A} _.
Arguments final {A} _.
Arguments events {A} _.

Definition P (A : Type) : Type := World -> Run A.

#[global] Instance P_ret : MRet P := fun _ a w =>
  {| result := Ok a; final := w; events := [] |}.

#[global] Instance P_bind : MBind P := fun _ _ k m w =>
  let r1 := m w in
  match result r1 with
  | Ok a =>
      let r2 := k a (final r1) in
      {| result := result r2; final := final r2; events := events r1 ++ events r2 |}
  | Throw e => {| result := Throw e; final := final r1; events := events r1 |}
  end.

(** A synchronous computation that may throw, run inside an async function. *)
Definition lift {A} (r : Result A) : P A := fun w =>
  {| result := r; final := w; events := [] |}.

(** [requestInit ?? {}] *)
Definition nullish_or_new (requestInit : option Ref) : P Ref := fun w =>
  match requestInit with
  | Some r => {| result := Ok r; final := w; events := [] |}
  | None =>
      let r := fresh (dom (heap w)) in
      {| result := Ok r; final := with_object w r empty_object; events := [] |}
  end.

(** [requestInit?.headers] *)
Definition read_headers (requestInit : option Ref) : P (option HeadersInit) := fun w =>
  {| result := Ok (match requestInit with
                   | Some r => headers (deref w r)
                   | None => None
                   end);
     final := w; events := [] |}.

Definition assign (r : Ref) (f : RequestInit -> RequestInit) : P unit := fun w =>
  {| result := Ok tt; final := update w r f; events := [] |}.

Definition set_method (m : string) (o : RequestInit) : RequestInit :=
  {| method := Some m; headers := headers o; body := body o; other := other o |}.
Definition set_headers (h : HeadersInit) (o : RequestInit) : RequestInit :=
  {| method := method o; headers := Some h; body := body o; other := other o |}.
Definition set_body (b : option string) (o : RequestInit) : RequestInit :=
  {| method := method o; headers := headers o; body := b; other := other o |}.

(* ================================================================== *)
(** ** The client *)
(* ================================================================== *)

Record ClientConfig : Type := {
  config_baseUrl : string;
  config_middlewares : option (list Middleware);
  config_afterwares : option (list Afterware)
}.

Record Client : Type := {
  fetcher : Fetcher;
  baseUrl : string;
  middlewares : list Middleware;
  afterwares : list Afterware
}.

(** The constructor; [fetch] is the transport of the platform. *)
Definition new_Client (fetch : Fetcher) (config : ClientConfig) : Client :=
  {| fetcher := fetch;
     baseUrl := config_baseUrl config;
     middlewares := default [] (config_middlewares config);
     afterwares := default [] (config_afterwares config) |}.

Record RequestOptions : Type := {
  content : option JsMap;
  path : option JsMap;
  query : option JsMap
}.

Inductive RestMethod : Type := M_get | M_put | M_post | M_delete.

Module Methods.
Import Serializer.

(** [#response] *)
Definition response (r : Response) : Result Envelope :=
  json ← (match Response_body r with
          | Some _ => Response_json r
          | None => Ok (JObj [])
          end);
  Ok {| data := json; requestResponse := r |}.

Definition await_middleware (i : nat) (mw : Middleware) (info : string) (init : Ref)
    : P unit := fun w =>
  let '(out, w') := mw info init w in
  {| result := out; final := w';
     events := [EvMiddleware i info init (deref w init) out] |}.

Definition await_fetcher (f : Fetcher) (info : string) (init : Ref) : P Response :=
  fun w =>
  let '(out, w') := f info init w in
  {| result := out; final := w';
     events := [EvTransport info init (deref w init) out] |}.

Definition await_afterware (i : nat) (aw : Afterware) (init : Ref) (resp : Response)
    : P unit := fun w =>
  let '(out, w') := aw init resp w in
  {| result := out; final := w';
     events := [EvAfterware i init (deref w init) resp out] |}.

Definition await_response (resp : Response) : P Envelope := fun w =>
  let out := response resp in
  {| result := out; final := w; events := [EvDecode resp out] |}.

(** [for (const middleware of this.middlewares) await middleware(...)];
    [i] is the position of the head of [mws] in the registered list. *)
Fixpoint for_middlewares (i : nat) (mws : list Middleware) (info : string) (init : Ref)
    : P unit :=
  match mws with
  | [] => mret tt
  | mw :: rest =>
      await_middleware i mw info init ≫= fun _ =>
      for_middlewares (S i) rest info init
  end.

Fixpoint for_afterwares (i : nat) (aws : list Afterware) (init : Ref) (resp : Response)
    : P unit :=
  match aws with
  | [] => mret tt
  | aw :: rest =>
      await_afterware i aw init resp ≫= fun _ =>
      for_afterwares (S i) rest init resp
  end.

(** [#request] *)
Definition request (c : Client) (path : string) (requestInit : option Ref)
    : P Envelope :=
  let requestInfo := baseUrl c +:+ path in
  _requestInit ← nullish_or_new requestInit;
  _ ← for_middlewares 0 (middlewares c) requestInfo _requestInit;
  requestResponse ← await_fetcher (fetcher c) requestInfo _requestInit;
  _ ← for_afterwares 0 (afterwares c) _requestInit requestResponse;
  await_response requestResponse.

(** [s || ""] *)
Definition or_empty_string (s : string) : string :=
  if String.eqb s "" then "" else s.

Definition get (c : Client) (urlPath : string) (options : RequestOptions)
    (requestInit : option Ref) : P Envelope :=
  sb ← lift (serializeRequestBody (content options));
  seralizedPath ← lift (serializePathParams urlPath (path options));
  serializedQuery ← lift (serializeQueryParams (query options));
  init ← nullish_or_new requestInit;
  _ ← assign init (set_method "GET");
  callerHeaders ← read_headers requestInit;
  _ ← assign init
        (set_headers (PlainHeaders (headers_literal (contentType sb) callerHeaders)));
  request c (seralizedPath +:+ or_empty_string serializedQuery) (Some init).

Definition post (c : Client) (urlPath : string) (options : RequestOptions)
    (requestInit : option Ref) : P Envelope :=
  sb ← lift (serializeRequestBody (content options));
  seralizedPath ← lift (serializePathParams urlPath (path options));
  serializedQuery ← lift (serializeQueryParams (query options));
  init ← nullish_or_new requestInit;
  _ ← assign init (set_method "POST");
  callerHeaders ← read_headers requestInit;
  _ ← assign init
        (set_headers (PlainHeaders (headers_literal (contentType sb) callerHeaders)));
  _ ← assign init (set_body (requestBody sb));
  request c (seralizedPath +:+ serializedQuery) (Some init).

Definition put (c : Client) (urlPath : string) (options : RequestOptions)
    (requestInit : option Ref) : P Envelope :=
  sb ← lift (serializeRequestBody (content options));
  seralizedPath ← lift (serializePathParams urlPath (path options));
  serializedQuery ← lift (serializeQueryParams (query options));
  init ← nullish_or_new requestInit;
  _ ← assign init (set_method "PUT");
  callerHeaders ← read_headers requestInit;
  _ ← assign init
        (set_headers (PlainHeaders (headers_literal (contentType sb) callerHeaders)));
  _ ← assign init (set_body (requestBody sb));
  request c (seralizedPath +:+ serializedQuery) (Some init).

Definition delete (c : Client) (urlPath : string) (options : RequestOptions)
    (requestInit : option Ref) : P Envelope :=
  sb ← lift (serializeRequestBody (content options));
  seralizedPath ← lift (serializePathParams urlPath (path options));
  serializedQuery ← lift (serializeQueryParams (query options));
  init ← nullish_or_new requestInit;
  _ ← assign init (set_method "DELETE");
  callerHeaders ← read_headers requestInit;
  _ ← assign init
        (set_headers (PlainHeaders (headers_literal (contentType sb) callerHeaders)));
  _ ← assign init (set_body (requestBody sb));
  request c (seralizedPath +:+ serializedQuery) (Some init).

(** A call through the verb method of [v]. *)
Definition verb (v : RestMethod) : Client -> string -> RequestOptions ->
    option Ref -> P Envelope :=
  match v with
  | M_get => get
  | M_put => put
  | M_post => post
  | M_delete => delete
  end.
End Methods.

(* ================================================================== *)
(** ** Vocabulary of the specification *)
(* ================================================================== *)

(** A replacement text without a dollar sign. *)
Fixpoint dollar_free (s : string) : bool :=
  match s with
  | EmptyString => true
  | String c rest => negb (Ascii.eqb c dollar) && dollar_free rest
  end.

(** Replacing the first occurrence of [pattern] by the literal [text]. *)
Definition replace_first (s pattern text : string) : string :=
  match split_first pattern s with
  | None => s
  | Some (pre, post) => pre +:+ text +:+ post
  end.

(** The entry [(key, value)] has the string form [(key, text)]. *)
Definition coerces (entry : string * JsValue) (form : string * string) : Prop :=
  fst entry = fst form /\ ToString (snd entry) = Ok (snd form).

(** The accumulator of the query construction, as the specification words
    it: [key=value&] appended for each entry in order. *)
Definition append_entries (seed : string) (forms : list (string * string)) : string :=
  fold_left (fun acc form => acc +:+ fst form +:+ "=" +:+ snd form +:+ "&") forms seed.

(** The substitution of the path serializer, as the specification words
    it: for each entry in order, the first occurrence of [{key}] is
    replaced by the value's string form. *)
Definition substitute_all (template : string) (forms : list (string * string)) : string :=
  fold_left (fun acc form => replace_first acc ("{" +:+ fst form +:+ "}") (snd form))
    forms template.

(** The documented fallback of the body construction. *)
Definition default_body : Serializer.SerializedBody :=
  {| Serializer.contentType := "application/json";
     Serializer.requestBody := Some "{}" |}.

(** The steps of the pipeline, as the specification names them. *)
Inductive Step : Type :=
| SMiddleware (i : nat)
| STransport
| SAfterware (i : nat)
| SDecode.

Definition step_of (ev : Event) : Step :=
  match ev with
  | EvMiddleware i _ _ _ _ => SMiddleware i
  | EvTransport _ _ _ _ => STransport
  | EvAfterware i _ _ _ _ => SAfterware i
  | EvDecode _ _ => SDecode
  end.

(** The order the specification prescribes for one call. *)
Definition pipeline_order (c : Client) : list Step :=
  map SMiddleware (seq 0 (length (middlewares c)))
  ++ STransport
  :: map SAfterware (seq 0 (length (afterwares c)))
  ++ [SDecode].

Definition error_of {A} (r : Result A) : option Exn :=
  match r with Ok _ => None | Throw e => Some e end.

(** The error a step raised, if it did. *)
Definition ev_error (ev : Event) : option Exn :=
  match ev with
  | EvMiddleware _ _ _ _ out => error_of out
  | EvTransport _ _ _ out => error_of out
  | EvAfterware _ _ _ _ out => error_of out
  | EvDecode _ out => error_of out
  end.

(** The descriptor a hook or the transport was given: the reference and
    the contents it had at that moment. *)
Definition ev_descriptor (ev : Event) : option (Ref * RequestInit) :=
  match ev with
  | EvMiddleware _ _ r seen _ => Some (r, seen)
  | EvTransport _ r seen _ => Some (r, seen)
  | EvAfterware _ r seen _ _ => Some (r, seen)
  | EvDecode _ _ => None
  end.

(** The request-info a middleware or the transport was given. *)
Definition ev_info (ev : Event) : option string :=
  match ev with
  | EvMiddleware _ info _ _ _ => Some info
  | EvTransport info _ _ _ => Some info
  | EvAfterware _ _ _ _ _ => None
  | EvDecode _ _ => None
  end.

(** [ev] was given the URL [info] and the descriptor object [r]. *)
Definition targets (info : string) (r : Ref) (ev : Event) : Prop :=
  (forall info', ev_info ev = Some info' -> info' = info)
  /\ (forall r' seen, ev_descriptor ev = Some (r', seen) -> r' = r).

(** The contents of the descriptor when the pipeline starts: what the
    first step of the call is given. *)
Definition first_seen {A} (run : Run A) : option RequestInit :=
  match events run with
  | ev :: _ => snd <$> ev_descriptor ev
  | [] => None
  end.

Definition method_name (v : RestMethod) : string :=
  match v with
  | M_get => "GET"
  | M_put => "PUT"
  | M_post => "POST"
  | M_delete => "DELETE"
  end.

(** The object [requestInit ?? {}] evaluates to, and the world after it. *)
Definition target (requestInit : option Ref) (w : World) : Ref * World :=
  match requestInit with
  | Some r => (r, w)
  | None => (fresh (dom (heap w)), with_object w (fresh (dom (heap w))) empty_object)
  end.

(** The fields of the descriptor after the assignments of the verb method
    of [v], [old] being the object before them. *)
Definition built_descriptor (v : RestMethod) (sb : Serializer.SerializedBody)
    (old : RequestInit) : RequestInit :=
  {| method := Some (method_name v);
     headers := Some (PlainHeaders (headers_literal (Serializer.contentType sb) (headers old)));
     body := match v with
             | M_get => body old
             | _ => Serializer.requestBody sb
             end;
     other := other old |}.

(** Inputs of the examples below. *)
Definition q (s : string) : string := json_quote s.

(** A content map whose JSON payload is the number zero. *)
Definition zero_content : JsMap := [("application/json", JNum 0)].

Definition no_content : Response :=
  {| Response_status := 204; Response_body := None; Response_json := Throw SyntaxError |}.

Definition json_response : Response :=
  {| Response_status := 200;
     Response_body := Some ("{" +:+ q "id" +:+ ":7}");
     Response_json := Ok (JObj [("id", JNum 7)]) |}.

Definition note (s : string) (w : World) : World :=
  {| heap := heap w; effects := effects w ++ [s] |}.

(** Hooks and transports that leave a note of their invocation. *)
Definition noting_middleware (name : string) : Middleware :=
  fun _ _ w => (Ok (), note name w).

Definition failing_middleware (e : Exn) : Middleware :=
  fun _ _ w => (Throw e, w).

Definition noting_afterware (name : string) : Afterware :=
  fun _ _ w => (Ok (), note name w).

Definition noting_fetch : Fetcher :=
  fun _ _ w => (Ok no_content, note "<transport>" w).

Definition quiet_fetch : Fetcher :=
  fun _ _ w => (Ok no_content, w).

Definition hooked_client : Client :=
  new_Client noting_fetch
    {| config_baseUrl := "https://api.test";
       config_middlewares := Some [noting_middleware "m1"; noting_middleware "m2"];
       config_afterwares := Some [noting_afterware "a1"; noting_afterware "a2"] |}.

Definition guarded_client : Client :=
  new_Client noting_fetch
    {| config_baseUrl := "https://api.test";
       config_middlewares :=
         Some [noting_middleware "m1"; failing_middleware (UserError "denied");
               noting_middleware "m3"];
       config_afterwares := Some [noting_afterware "a1"] |}.

Definition plain_client : Client :=
  new_Client quiet_fetch
    {| config_baseUrl := "https://api.test";
       config_middlewares := None;
       config_afterwares := None |}.

Definition no_options : RequestOptions :=
  {| content := None; path := None; query := None |}.

Definition item_options : RequestOptions :=
  {| content := Some [("application/json", JObj [("x", JNum 1)])];
     path := None;
     query := None |}.

(** A world with one caller-owned object, [const overrides = {}]. *)
Definition one_object : World :=
  {| heap := {[ 1%positive := empty_object ]}; effects := [] |}.

(** The same world after [await client.post("/items", ..., overrides)]. *)
Definition after_post : World :=
  final (Methods.post plain_client "/items" item_options (Some 1%positive) one_object).

(** A world whose object carries its headers as an instance of [Headers]:
    [{ headers: new Headers({ Authorization: ..., "Content-Type": ... }) }]. *)
Definition headers_instance_world : World :=
  {| heap := {[ 1%positive :=
                {| method := None;
                   headers := Some (HeadersInstance
                                      [("Authorization", "Bearer t");
                                       ("Content-Type", "text/plain")]);
                   body := None;
                   other := ∅ |} ]};
     effects := [] |}.

(** The response a step was given or returned, if any. *)
Definition ev_response (ev : Event) : option Response :=
  match ev with
  | EvMiddleware _ _ _ _ _ => None
  | EvTransport _ _ _ (Ok resp) => Some resp
  | EvTransport _ _ _ (Throw _) => None
  | EvAfterware _ _ _ resp _ => Some resp
  | EvDecode resp _ => Some resp
  end.

(** A value that has no string form: [ToString] throws on it. *)
Definition unstringifiable (entry : string * JsValue) : Prop :=
  exists e, ToString (snd entry) = Throw e.

(** [key=value], the text of one query parameter. *)
Definition pair_text (form : string * string) : string :=
  fst form +:+ "=" +:+ snd form.

(** Options whose body is a plain text. *)
Definition text_options : RequestOptions :=
  {| content := Some [("text/plain", JStr "hi")];
     path := None;
     query := None |}.

(** The world the middlewares leave when each of them resolves: their
    effects on the world, applied in registration order. *)
Definition chain_world (mws : list Middleware) (info : string) (r : Ref) (w : World)
    : World :=
  fold_left (fun w' mw => snd (mw info r w')) mws w.

Definition failing_fetch (e : Exn) : Fetcher :=
  fun _ _ w => (Throw e, w).

Definition failing_afterware (e : Exn) : Afterware :=
  fun _ _ w => (Throw e, w).

(** A response with a body that is not JSON. *)
Definition html_response : Response :=
  {| Response_status := 502;
     Response_body := Some "<html>Bad Gateway</html>";
     Response_json := Throw SyntaxError |}.

Definition html_fetch : Fetcher :=
  fun _ _ w => (Ok html_response, note "<transport>" w).

Definition json_fetch : Fetcher :=
  fun _ _ w => (Ok json_response, note "<transport>" w).

(** A middleware that signs the request: it writes a header into the
    descriptor it is given. *)
Definition signing_middleware : Middleware :=
  fun _ r w =>
    (Ok (),
     update w r (fun o =>
       set_headers (PlainHeaders (<["Authorization" := HVStr "Bearer t"]> (spread (headers o)))) o)).

Definition offline_client : Client :=
  new_Client (failing_fetch (UserError "offline"))
    {| config_baseUrl := "https://api.test";
       config_middlewares := Some [noting_middleware "m1"];
       config_afterwares := Some [noting_afterware "a1"] |}.

Definition audited_client : Client :=
  new_Client noting_fetch
    {| config_baseUrl := "https://api.test";
       config_middlewares := Some [noting_middleware "m1"];
       config_afterwares :=
         Some [noting_afterware "a1"; failing_afterware (UserError "audit");
               noting_afterware "a3"] |}.

Definition html_client : Client :=
  new_Client html_fetch
    {| config_baseUrl := "https://api.test";
       config_middlewares := Some [noting_middleware "m1"];
       config_afterwares := Some [noting_afterware "a1"] |}.

Definition json_client : Client :=
  new_Client json_fetch
    {| config_baseUrl := "https://api.test";
       config_middlewares := Some [noting_middleware "m1"];
       config_afterwares := Some [noting_afterware "a1"] |}.

Definition signing_client : Client :=
  new_Client noting_fetch
    {| config_baseUrl := "https://api.test";
       config_middlewares := Some [noting_middleware "m1"; signing_middleware];
       config_afterwares := None |}.

(** The world the afterwares leave when each of them resolves. *)
Definition after_world (aws : list Afterware) (r : Ref) (resp : Response) (w : World)
    : World :=
  fold_left (fun w' aw => snd (aw r resp w')) aws w.

(** The order of the specification, event by event.  In a call whose
    pipeline starts in the world [w] on the URL [info] and the descriptor
    object [r], the event [ev] is the step the specification prescribes at
    its position:
    - the [i]-th middleware event is the invocation of the [i]-th
      registered middleware on [info] and [r], in the world the [i]
      middlewares before it left;
    - the transport event is the invocation of the transport on [info] and
      [r], in the world all the middlewares left;
    - the [j]-th afterware event is the invocation of the [j]-th
      registered afterware on [r] and the response the transport resolved
      to, in the world the transport and the [j] afterwares before it left;
    - the decoding event is the decoding of that response. *)
Definition as_registered (c : Client) (info : string) (r : Ref) (w : World) (ev : Event)
    : Prop :=
  let wm := chain_world (middlewares c) info r w in
  let sent := fetcher c info r wm in
  match ev with
  | EvMiddleware i info' r' seen out =>
      info' = info /\ r' = r
      /\ exists mw, middlewares c !! i = Some mw
           /\ seen = deref (chain_world (take i (middlewares c)) info r w) r
           /\ out = fst (mw info r (chain_world (take i (middlewares c)) info r w))
  | EvTransport info' r' seen out =>
      info' = info /\ r' = r /\ seen = deref wm r /\ out = fst sent
  | EvAfterware j r' seen resp out =>
      r' = r /\ fst sent = Ok resp
      /\ exists aw, afterwares c !! j = Some aw
           /\ seen = deref (after_world (take j (afterwares c)) r resp (snd sent)) r
           /\ out = fst (aw r resp (after_world (take j (afterwares c)) r resp (snd sent)))
  | EvDecode resp out =>
      fst sent = Ok resp /\ out = Methods.response resp
  end.

(** The world the step of [ev] leaves, in the same call. *)
Definition world_after (c : Client) (info : string) (r : Ref) (w : World) (ev : Event)
    : World :=
  let wm := chain_world (middlewares c) info r w in
  let sent := fetcher c info r wm in
  match ev with
  | EvMiddleware i _ _ _ _ => chain_world (take (S i) (middlewares c)) info r w
  | EvTransport _ _ _ _ => snd sent
  | EvAfterware j _ _ resp _ => after_world (take (S j) (afterwares c)) r resp (snd sent)
  | EvDecode resp _ => after_world (afterwares c) r resp (snd sent)
  end.


(** The overrides object as the verb method finds it: the caller's object,
    or the empty object created when the caller passes none. *)
Definition entry_object (requestInit : option Ref) (w : World) : RequestInit :=
  match requestInit with
  | Some r => deref w r
  | None => empty_object
  end.

(** A response that differs from [json_response] in its JSON accessor only. *)
Definition other_json_response : Response :=
  {| Response_status := 200;
     Response_body := Some ("{" +:+ q "id" +:+ ":7}");
     Response_json := Ok (JObj [("id", JNum 8)]) |}.

(* ================================================================== *)
(** ** Properties of the builtins *)
(* ================================================================== *)

Lemma bind_Ok {A B} (a : A) (k : A -> Result B) : (Ok a ≫= k) = k a.
Proof. reflexivity. Qed.

Lemma bind_Throw {A B} (e : Exn) (k : A -> Result B) : (Throw e ≫= k) = Throw e.
Proof. reflexivity. Qed.

Lemma append_nil_l (a : string) : "" +:+ a = a.
Proof. reflexivity. Qed.

Lemma append_cons (x : ascii) (a b : string) : String x a +:+ b = String x (a +:+ b).
Proof. reflexivity. Qed.

Lemma append_assoc (a b c : string) : (a +:+ b) +:+ c = a +:+ (b +:+ c).
Proof.
  induction a as [|x a IH]; [reflexivity |].
  rewrite !append_cons. now rewrite IH.
Qed.

Lemma slice_0_m1_snoc (s : string) (c : ascii) : slice_0_m1 (s +:+ str1 c) = s.
Proof.
  induction s as [|x s IH]; [reflexivity |].
  rewrite append_cons. cbn [slice_0_m1]. rewrite IH.
  destruct s; reflexivity.
Qed.

Lemma or_empty_string_id (s : string) : Methods.or_empty_string s = s.
Proof.
  unfold Methods.or_empty_string.
  destruct (String.eqb_spec s ""); congruence.
Qed.

Lemma getSubstitution_dollar_free (matched pre post r : string) :
  dollar_free r = true -> getSubstitution matched pre post r = r.
Proof.
  induction r as [|c r IH]; simpl; [reflexivity |].
  intros [Hc Hr]%andb_prop.
  destruct (Ascii.eqb c dollar); [discriminate |].
  now rewrite IH.
Qed.

Lemma strip_prefix_sound (p t rest : string) :
  strip_prefix p t = Some rest -> t = p +:+ rest.
Proof.
  revert t rest. induction p as [|a p IH]; intros t rest; simpl.
  - now intros [= ->].
  - destruct t as [|b t]; [discriminate |].
    destruct (Ascii.eqb_spec a b) as [->|]; [|discriminate].
    intros H. rewrite append_cons. now rewrite <- (IH _ _ H).
Qed.

Lemma split_first_sound (pat s pre post : string) :
  split_first pat s = Some (pre, post) -> s = pre +:+ pat +:+ post.
Proof.
  revert pre post. induction s as [|c s IH]; intros pre post; simpl.
  - destruct (strip_prefix pat "") eqn:E; [|discriminate].
    intros [= <- <-]. rewrite append_nil_l. now apply strip_prefix_sound.
  - destruct (strip_prefix pat (String c s)) eqn:E.
    + intros [= <- <-]. rewrite append_nil_l. now apply strip_prefix_sound.
    + destruct (split_first pat s) as [[pre' post']|] eqn:E'; [|discriminate].
      intros [= <- <-]. rewrite append_cons. now rewrite <- (IH _ _ eq_refl).
Qed.

(** On a replacement whose string form has no dollar sign, [replace]
    replaces the first occurrence by that string form. *)
Lemma String_replace_plain (s pattern : string) (v : JsValue) (text : string) :
  ToString v = Ok text ->
  dollar_free text = true ->
  String_replace s pattern v = Ok (replace_first s pattern text).
Proof.
  intros Hv H. unfold String_replace, replace_first. rewrite Hv. cbn.
  destruct (split_first pattern s) as [[pre post]|]; [|reflexivity].
  now rewrite getSubstitution_dollar_free.
Qed.

(** Without an occurrence of the pattern, [replace] returns the string. *)
Lemma String_replace_absent (s pattern : string) (v : JsValue) (text : string) :
  ToString v = Ok text ->
  split_first pattern s = None ->
  String_replace s pattern v = Ok s.
Proof. intros Hv H. unfold String_replace. now rewrite Hv, H. Qed.

(* ================================================================== *)
(** ** Properties of the serializers *)
(* ================================================================== *)

Section SerializerFacts.
Import Serializer.

Lemma reduce_cons {A} (step : A -> string * JsValue -> Result A)
    (entry : string * JsValue) (rest : JsMap) (acc : A) :
  reduce step (entry :: rest) acc = step acc entry ≫= reduce step rest.
Proof. reflexivity. Qed.

Lemma reduce_query_step (entries : JsMap) (forms : list (string * string)) (acc : string) :
  Forall2 coerces entries forms ->
  reduce query_step entries acc = Ok (append_entries acc forms).
Proof.
  intros H. revert acc.
  induction H as [|[k v] [k' s] entries forms [Hk Hv] _ IH]; intros acc.
  - reflexivity.
  - cbn [fst snd] in Hk, Hv. subst k'.
    rewrite reduce_cons.
    change (query_step acc (k, v))
      with (ToString v ≫= fun t => Ok (acc +:+ k +:+ "=" +:+ t +:+ "&")).
    rewrite Hv, !bind_Ok. apply IH.
Qed.

Lemma append_entries_snoc (seed : string) (forms : list (string * string)) :
  forms <> [] ->
  exists s, append_entries seed forms = s +:+ "&".
Proof.
  revert seed. induction forms as [|f forms IH]; intros seed Hne; [done |].
  destruct forms as [|g forms].
  - exists (seed +:+ fst f +:+ "=" +:+ snd f).
    unfold append_entries. cbn [fold_left]. now rewrite !append_assoc.
  - apply (IH (seed +:+ fst f +:+ "=" +:+ snd f +:+ "&")). discriminate.
Qed.

(** On values whose string forms have no dollar sign, the path
    serializer is the substitution of the specification. *)
Lemma path_substitution_plain (template : string) (entries : JsMap)
    (forms : list (string * string)) :
  Forall2 coerces entries forms ->
  Forall (fun form => dollar_free (snd form) = true) forms ->
  serializePathParams template (Some entries) = Ok (substitute_all template forms).
Proof.
  intros H Hfree. unfold serializePathParams, serializePathParams_try. cbn [or_empty].
  enough (E : reduce path_step entries template = Ok (substitute_all template forms))
    by now rewrite E.
  revert template Hfree.
  induction H as [|[k v] [k' t] entries forms [Hk Hv] _ IH]; intros template Hfree.
  - reflexivity.
  - cbn [fst snd] in Hk, Hv. subst k'.
    apply Forall_cons in Hfree as [Ht Hfree]. cbn [snd] in Ht.
    rewrite reduce_cons.
    change (path_step template (k, v))
      with (String_replace template ("{" +:+ k +:+ "}") v).
    rewrite (String_replace_plain _ _ _ _ Hv Ht), bind_Ok. now apply IH.
Qed.

(** A key whose placeholder does not occur leaves the accumulated
    template as it is. *)
Lemma path_step_absent (acc key : string) (value : JsValue) (text : string) :
  ToString value = Ok text ->
  split_first ("{" +:+ key +:+ "}") acc = None ->
  path_step acc (key, value) = Ok acc.
Proof. intros Hv H. now apply (String_replace_absent _ _ _ text). Qed.

(** An absent or empty path map returns the template unchanged. *)
Lemma path_no_params (template : string) :
  serializePathParams template None = Ok template
  /\ serializePathParams template (Some []) = Ok template.
Proof. split; reflexivity. Qed.

Lemma replace_first_absent (s pattern text : string) :
  split_first pattern s = None -> replace_first s pattern text = s.
Proof. unfold replace_first. now intros ->. Qed.

Lemma get_prop_head (k : string) (v : JsValue) (rest : JsMap) :
  get_prop ((k, v) :: rest) k = v.
Proof. simpl. now rewrite String.eqb_refl. Qed.
End SerializerFacts.

(* ================================================================== *)
(** ** The serializers against the specification *)
(* ================================================================== *)

Section SerializerClaims.
Import Serializer.

(** C5. Query construction: when every value of the map has a string
    form, the result is the accumulator seeded with [?] to which
    [key=value&] was appended for each entry in iteration order, without
    its last character, which is the trailing [&] as soon as the map has
    an entry; an absent or empty map gives the empty string, and a map
    with one entry gives [?key=value]. *)
Theorem query_construction (query : option JsMap) (forms : list (string * string)) :
  Forall2 coerces (or_empty query) forms ->
  serializeQueryParams query = Ok (slice_0_m1 (append_entries "?" forms))
  /\ (forms <> [] ->
      exists s, append_entries "?" forms = s +:+ "&" /\ serializeQueryParams query = Ok s)
  /\ (forms = [] -> serializeQueryParams query = Ok "")
  /\ (forall k t, forms = [(k, t)] ->
      serializeQueryParams query = Ok ("?" +:+ k +:+ "=" +:+ t)).
Proof.
  intros H.
  assert (E : serializeQueryParams query = Ok (slice_0_m1 (append_entries "?" forms))).
  { unfold serializeQueryParams, serializeQueryParams_try.
    now rewrite (reduce_query_step _ _ _ H). }
  split; [exact E |]. split; [| split].
  - intros Hne. destruct (append_entries_snoc "?" forms Hne) as [s Hs].
    exists s. split; [exact Hs |].
    rewrite E, Hs. f_equal. apply (slice_0_m1_snoc s "&"%char).
  - intros ->. exact E.
  - intros k t ->. rewrite E. f_equal.
    unfold append_entries. cbn [fold_left fst snd].
    change ("?" +:+ k +:+ "=" +:+ t +:+ "&")
      with ("?" +:+ (k +:+ "=" +:+ t +:+ "&")).
    rewrite <- !append_assoc. apply (slice_0_m1_snoc _ "&"%char).
Qed.

Lemma query_construction_witness :
  Forall2 coerces (or_empty (Some [("a", JNum 1); ("b", JNum 2)])) [("a", "1"); ("b", "2")]
  /\ serializeQueryParams (Some [("a", JNum 1); ("b", JNum 2)]) = Ok "?a=1&b=2".
Proof.
  assert (H : Forall2 coerces (or_empty (Some [("a", JNum 1); ("b", JNum 2)]))
                [("a", "1"); ("b", "2")]).
  { repeat constructor. }
  split; [exact H |].
  exact (proj1 (query_construction (Some [("a", JNum 1); ("b", JNum 2)])
                  [("a", "1"); ("b", "2")] H)).
Defined.

(** A value without a string form is an internal error of the query
    construction: the result is the documented empty string. *)
Example query_symbol_value :
  serializeQueryParams (Some [("a", JNum 1); ("b", JSymbol "s")]) = Ok "".
Proof. reflexivity. Qed.

Lemma serializers_total (template : string) (params query content : option JsMap) :
  (exists s, serializePathParams template params = Ok s)
  /\ (exists s, serializeQueryParams query = Ok s)
  /\ (exists b, serializeRequestBody content = Ok b).
Proof.
  unfold serializePathParams, serializeQueryParams, serializeRequestBody.
  repeat split.
  - destruct (serializePathParams_try template params); eauto.
  - destruct (serializeQueryParams_try query); eauto.
  - destruct (serializeRequestBody_try content); eauto.
Qed.

(** The fallbacks are reached: a symbol among the path or query values,
    an absent content map, a BigInt in the payload. *)
Example path_fallback_reached :
  serializePathParams_try "/users/{id}/{tab}" (Some [("id", JNum 7); ("tab", JSymbol "t")])
  = Throw TypeError
  /\ serializePathParams "/users/{id}/{tab}" (Some [("id", JNum 7); ("tab", JSymbol "t")])
     = Ok "/users/{id}/{tab}".
Proof. split; reflexivity. Qed.

Example query_fallback_reached :
  serializeQueryParams_try (Some [("a", JSymbol "s")]) = Throw TypeError
  /\ serializeQueryParams (Some [("a", JSymbol "s")]) = Ok "".
Proof. split; reflexivity. Qed.

Example body_fallback_reached :
  serializeRequestBody_try None = Throw TypeError
  /\ serializeRequestBody None = Ok default_body
  /\ serializeRequestBody_try (Some [("text/plain", JArr [JBigInt 1])]) = Throw TypeError
  /\ serializeRequestBody (Some [("text/plain", JArr [JBigInt 1])]) = Ok default_body.
Proof. repeat split; reflexivity. Qed.

(** C3 as stated fails on a falsy payload: the payload stored under the
    first key is [0], whose JSON text is [0], and the body is [{}]. *)
Lemma body_construction_falsy_payload :
  JSON_stringify (get_prop zero_content "application/json") = Ok (Some "0")
  /\ serializeRequestBody (Some zero_content)
     = Ok {| contentType := "application/json"; requestBody := Some "{}" |}
  /\ serializeRequestBody (Some zero_content)
     <> Ok {| contentType := "application/json"; requestBody := Some "0" |}.
Proof. split; [reflexivity | split; [reflexivity | discriminate]]. Qed.

(** C3, amended. For a non-empty content map the content type is the
    first key, or [application/json] when that key is the empty string,
    and the payload is the one stored under that content type.  The body
    is what [JSON.stringify] returns for the payload when the payload is
    truthy (its JSON text, or [undefined] for a symbol), and [{}] when it
    is falsy (undefined, null, false, zero, the empty string); when
    [JSON.stringify] throws on a truthy payload the result is the
    fallback, [application/json] with [{}].  An absent or empty map
    gives [application/json] and [{}]. *)
Theorem body_construction (k : string) (v : JsValue) (rest : JsMap) :
  let type := if String.eqb k "" then "application/json" else k in
  let payload := if String.eqb k "" then get_prop rest "application/json" else v in
  serializeRequestBody (Some ((k, v) :: rest))
  = (if truthy payload then
       match JSON_stringify payload with
       | Ok text => Ok {| contentType := type; requestBody := text |}
       | Throw _ => Ok default_body
       end
     else Ok {| contentType := type; requestBody := Some "{}" |})
  /\ serializeRequestBody None = Ok default_body
  /\ serializeRequestBody (Some []) = Ok default_body.
Proof.
  cbv zeta. split; [| split; reflexivity].
  unfold serializeRequestBody, serializeRequestBody_try.
  cbn [or_empty Object_keys map fst first_key_or_default read_content].
  destruct (String.eqb_spec k "") as [->|Hk].
  - cbn [get_prop]. change (String.eqb "" "application/json") with false. cbn iota.
    rewrite bind_Ok.
    destruct (truthy (get_prop rest "application/json")); [| reflexivity].
    destruct (JSON_stringify (get_prop rest "application/json")); reflexivity.
  - rewrite get_prop_head, bind_Ok.
    destruct (truthy v); [| reflexivity].
    destruct (JSON_stringify v); reflexivity.
Qed.

Lemma body_construction_witness :
  serializeRequestBody (Some [("application/json", JObj [("x", JNum 1)])])
  = Ok {| contentType := "application/json";
          requestBody := Some ("{" +:+ q "x" +:+ ":1}") |}
  /\ serializeRequestBody (Some [("text/plain", JStr "")])
     = Ok {| contentType := "text/plain"; requestBody := Some "{}" |}
  /\ serializeRequestBody (Some [("text/plain", JSymbol "s")])
     = Ok {| contentType := "text/plain"; requestBody := None |}
  /\ serializeRequestBody (Some [("text/plain", JArr [JBigInt 10])]) = Ok default_body.
Proof.
  split; [| split; [| split]].
  - exact (proj1 (body_construction "application/json" (JObj [("x", JNum 1)]) [])).
  - exact (proj1 (body_construction "text/plain" (JStr "") [])).
  - exact (proj1 (body_construction "text/plain" (JSymbol "s") [])).
  - exact (proj1 (body_construction "text/plain" (JArr [JBigInt 10]) [])).
Defined.

(** An empty first key does not become the content type. *)
Example body_empty_first_key :
  serializeRequestBody (Some [("", JNum 5); ("application/json", JBool true)])
  = Ok {| contentType := "application/json"; requestBody := Some "true" |}.
Proof. reflexivity. Qed.

(** C4 fails on a value that contains a dollar pattern: the replacement
    argument of [replace] is expanded, so [$$] leaves one dollar sign and
    [$&] brings the placeholder back. *)
Theorem path_substitution_dollar :
  serializePathParams "/tags/{tag}" (Some [("tag", JStr "$$")]) = Ok "/tags/$"
  /\ serializePathParams "/files/{name}" (Some [("name", JStr "a$&b")])
     = Ok "/files/a{name}b"
  /\ substitute_all "/tags/{tag}" [("tag", "$$")] = "/tags/$$"
  /\ substitute_all "/files/{name}" [("name", "a$&b")] = "/files/a$&b".
Proof. repeat split; reflexivity. Qed.

(** The examples of the specification for the path substitution. *)
Example path_substitution_examples :
  serializePathParams "/users/{id}/posts/{postId}" (Some [("id", JStr "7"); ("postId", JStr "3")])
  = Ok "/users/7/posts/3"
  /\ serializePathParams "/users/{id}" (Some []) = Ok "/users/{id}"
  /\ serializePathParams "/users/{id}" None = Ok "/users/{id}"
  /\ serializePathParams "/users/{id}" (Some [("other", JStr "1")]) = Ok "/users/{id}"
  /\ serializePathParams "/a/{id}/b/{id}" (Some [("id", JNum 7)]) = Ok "/a/7/b/{id}".
Proof. repeat split; reflexivity. Qed.
End SerializerClaims.

(* ================================================================== *)
(** ** The monad of a call *)
(* ================================================================== *)

Lemma run_eta {A} (r : Run A) :
  {| result := result r; final := final r; events := events r |} = r.
Proof. now destruct r. Qed.

Lemma bind_run {A B} (m : P A) (k : A -> P B) (w : World) :
  (m ≫= k) w =
  match result (m w) with
  | Ok a =>
      {| result := result (k a (final (m w)));
         final := final (k a (final (m w)));
         events := events (m w) ++ events (k a (final (m w))) |}
  | Throw e => {| result := Throw e; final := final (m w); events := events (m w) |}
  end.
Proof. reflexivity. Qed.

(** A step that resolves without calling a hook is transparent. *)
Lemma silent_bind {A B} (m : P A) (k : A -> P B) (w w' : World) (a : A) :
  m w = {| result := Ok a; final := w'; events := [] |} ->
  (m ≫= k) w = k a w'.
Proof. intros H. rewrite bind_run, H. cbn. apply run_eta. Qed.

Lemma deref_with_object (w : World) (r : Ref) (o : RequestInit) :
  deref (with_object w r o) r = o.
Proof. unfold deref, with_object. cbn. now rewrite lookup_insert_eq. Qed.

Lemma with_object_twice (w : World) (r : Ref) (o1 o2 : RequestInit) :
  with_object (with_object w r o1) r o2 = with_object w r o2.
Proof. unfold with_object. cbn. now rewrite insert_insert_eq. Qed.

Lemma deref_target_fresh (w : World) :
  deref (snd (target None w)) (fst (target None w)) = empty_object.
Proof. apply deref_with_object. Qed.

Lemma with_object_target (requestInit : option Ref) (w : World) (o : RequestInit) :
  with_object (snd (target requestInit w)) (fst (target requestInit w)) o
  = with_object w (fst (target requestInit w)) o.
Proof.
  destruct requestInit as [r|]; [reflexivity |]. apply with_object_twice.
Qed.

(* ================================================================== *)
(** ** The shape of a run of the pipeline *)
(* ================================================================== *)

Section Pipeline.
Import Methods.

Lemma seq_snoc_inj (f : nat -> Step) (start n i : nat) (l : list Step) :
  (forall a b, f a = f b -> a = b) ->
  map f (seq start n) = l ++ [f i] -> start + n = S i.
Proof.
  intros Hinj. destruct n as [|n]; cbn [seq map].
  - intros H. now destruct l.
  - change (f start :: map f (seq (S start) n)) with (map f (seq start (S n))).
    rewrite seq_S, map_app. cbn [map].
    intros [_ H]%app_inj_tail. apply Hinj in H. lia.
Qed.

Lemma seq_prefix (f : nat -> Step) (start n m : nat) (rest : list Step) :
  n <= m -> map f (seq start n) `prefix_of` map f (seq start m) ++ rest.
Proof.
  intros H. replace m with (n + (m - n)) by lia.
  rewrite seq_app, map_app, <- app_assoc. now apply prefix_app_r.
Qed.

Lemma await_middleware_eq (i : nat) (mw : Middleware) (info : string) (r : Ref)
    (w w' : World) (out : Result unit) :
  mw info r w = (out, w') ->
  await_middleware i mw info r w
  = {| result := out; final := w'; events := [EvMiddleware i info r (deref w r) out] |}.
Proof. unfold await_middleware. now intros ->. Qed.

Lemma await_afterware_eq (i : nat) (aw : Afterware) (r : Ref) (resp : Response)
    (w w' : World) (out : Result unit) :
  aw r resp w = (out, w') ->
  await_afterware i aw r resp w
  = {| result := out; final := w'; events := [EvAfterware i r (deref w r) resp out] |}.
Proof. unfold await_afterware. now intros ->. Qed.

Lemma await_fetcher_eq (f : Fetcher) (info : string) (r : Ref)
    (w w' : World) (out : Result Response) :
  f info r w = (out, w') ->
  await_fetcher f info r w
  = {| result := out; final := w'; events := [EvTransport info r (deref w r) out] |}.
Proof. unfold await_fetcher. now intros ->. Qed.

(** The loop over the middlewares: it calls them in order from the first
    on, all of them when it resolves, and up to the one that raises
    otherwise. *)
Lemma for_middlewares_shape (mws : list Middleware) (i : nat) (info : string) (r : Ref)
    (w : World) :
  let run := for_middlewares i mws info r w in
  (exists n, n <= length mws
     /\ map step_of (events run) = map SMiddleware (seq i n)
     /\ (error_of (result run) = None -> n = length mws))
  /\ Forall (targets info r) (events run)
  /\ match result run with
     | Ok _ => Forall (fun ev => ev_error ev = None) (events run)
     | Throw e =>
         exists pre last, events run = pre ++ [last]
           /\ Forall (fun ev => ev_error ev = None) pre
           /\ ev_error last = Some e
     end.
Proof.
  revert i w. induction mws as [|mw rest IH]; intros i w.
  - cbn. split; [exists 0; cbn; auto |]. split; constructor.
  - cbv zeta. cbn [for_middlewares]. rewrite bind_run.
    destruct (mw info r w) as [[[]|e] w'] eqn:Emw;
      rewrite (await_middleware_eq i _ _ _ _ _ _ Emw); cbn [result final events].
    + specialize (IH (S i) w'). cbn zeta in IH.
      destruct IH as ((n & Hn & Hsteps & Hall) & Htargets & Hout).
      split; [| split].
      * exists (S n). cbn [length map seq app step_of].
        rewrite Hsteps. repeat split; [lia | auto].
      * constructor; [| exact Htargets].
        split; cbn; [now intros ? [= <-] | now intros ? ? [= <- _]].
      * destruct (result (for_middlewares (S i) rest info r w')) as [[]|e].
        -- constructor; [reflexivity | exact Hout].
        -- destruct Hout as (pre & last & Hev & Hpre & Hlast).
           exists (EvMiddleware i info r (deref w r) (Ok ()) :: pre), last.
           cbn [app]. rewrite Hev. repeat split; [| exact Hlast].
           constructor; [reflexivity | exact Hpre].
    + split; [| split].
      * exists 1. cbn [length map seq step_of]. repeat split; [lia | discriminate].
      * constructor; [| constructor].
        split; cbn; [now intros ? [= <-] | now intros ? ? [= <- _]].
      * exists [], (EvMiddleware i info r (deref w r) (Throw e)).
        repeat split. constructor.
Qed.

Lemma for_afterwares_shape (aws : list Afterware) (i : nat) (r : Ref) (resp : Response)
    (info : string) (w : World) :
  let run := for_afterwares i aws r resp w in
  (exists n, n <= length aws
     /\ map step_of (events run) = map SAfterware (seq i n)
     /\ (error_of (result run) = None -> n = length aws))
  /\ Forall (targets info r) (events run)
  /\ match result run with
     | Ok _ => Forall (fun ev => ev_error ev = None) (events run)
     | Throw e =>
         exists pre last, events run = pre ++ [last]
           /\ Forall (fun ev => ev_error ev = None) pre
           /\ ev_error last = Some e
     end.
Proof.
  revert i w. induction aws as [|aw rest IH]; intros i w.
  - cbn. split; [exists 0; cbn; auto |]. split; constructor.
  - cbv zeta. cbn [for_afterwares]. rewrite bind_run.
    destruct (aw r resp w) as [[[]|e] w'] eqn:Eaw;
      rewrite (await_afterware_eq i _ _ _ _ _ _ Eaw); cbn [result final events].
    + specialize (IH (S i) w'). cbn zeta in IH.
      destruct IH as ((n & Hn & Hsteps & Hall) & Htargets & Hout).
      split; [| split].
      * exists (S n). cbn [length map seq app step_of].
        rewrite Hsteps. repeat split; [lia | auto].
      * constructor; [| exact Htargets].
        split; cbn; [discriminate | now intros ? ? [= <- _]].
      * destruct (result (for_afterwares (S i) rest r resp w')) as [[]|e].
        -- constructor; [reflexivity | exact Hout].
        -- destruct Hout as (pre & last & Hev & Hpre & Hlast).
           exists (EvAfterware i r (deref w r) resp (Ok ()) :: pre), last.
           cbn [app]. rewrite Hev. repeat split; [| exact Hlast].
           constructor; [reflexivity | exact Hpre].
    + split; [| split].
      * exists 1. cbn [length map seq step_of]. repeat split; [lia | discriminate].
      * constructor; [| constructor].
        split; cbn; [discriminate | now intros ? ? [= <- _]].
      * exists [], (EvAfterware i r (deref w r) resp (Throw e)).
        repeat split. constructor.
Qed.
(** [#request] on a descriptor object, one loop after the other. *)
Lemma request_run (c : Client) (url : string) (r : Ref) (w : World) :
  request c url (Some r) w =
  let info := baseUrl c +:+ url in
  let rm := for_middlewares 0 (middlewares c) info r w in
  match result rm with
  | Throw e => {| result := Throw e; final := final rm; events := events rm |}
  | Ok _ =>
      let rf := await_fetcher (fetcher c) info r (final rm) in
      match result rf with
      | Throw e =>
          {| result := Throw e; final := final rf; events := events rm ++ events rf |}
      | Ok resp =>
          let ra := for_afterwares 0 (afterwares c) r resp (final rf) in
          match result ra with
          | Throw e =>
              {| result := Throw e; final := final ra;
                 events := events rm ++ events rf ++ events ra |}
          | Ok _ =>
              {| result := response resp; final := final ra;
                 events := events rm ++ events rf ++ events ra
                           ++ [EvDecode resp (response resp)] |}
          end
      end
  end.
Proof.
  unfold request.
  rewrite (silent_bind (nullish_or_new (Some r)) _ w w r) by reflexivity.
  cbv zeta. rewrite bind_run.
  destruct (result (for_middlewares 0 (middlewares c) (baseUrl c +:+ url) r w));
    [| reflexivity].
  rewrite bind_run.
  destruct (result (await_fetcher _ _ _ _)) as [resp|e]; [| reflexivity].
  cbn [result final events]. rewrite bind_run.
  destruct (result (for_afterwares _ _ _ _ _)); reflexivity.
Qed.

Lemma await_fetcher_event (f : Fetcher) (info : string) (r : Ref) (w : World) :
  events (await_fetcher f info r w)
  = [EvTransport info r (deref w r) (result (await_fetcher f info r w))].
Proof. unfold await_fetcher. now destruct (f info r w). Qed.

Lemma targets_transport (info : string) (r : Ref) (seen : RequestInit)
    (out : Result Response) :
  targets info r (EvTransport info r seen out).
Proof. split; cbn; [now intros ? [= <-] | now intros ? ? [= <- _]]. Qed.

Lemma targets_decode (info : string) (r : Ref) (resp : Response) (out : Result Envelope) :
  targets info r (EvDecode resp out).
Proof. split; cbn; discriminate. Qed.

Lemma result_error_of {A} (r : Result A) (a : A) : r = Ok a -> error_of r = None.
Proof. now intros ->. Qed.

(** The whole pipeline: every step is given the same URL and the same
    descriptor object; a call that resolves went through all the steps in
    the prescribed order and none of them raised; a call that rejects
    went through a prefix of them and rejects with the error of the last
    step it reached. *)
Lemma request_shape (c : Client) (url : string) (r : Ref) (w : World) :
  let run := request c url (Some r) w in
  Forall (targets (baseUrl c +:+ url) r) (events run)
  /\ match result run with
     | Ok _ =>
         map step_of (events run) = pipeline_order c
         /\ Forall (fun ev => ev_error ev = None) (events run)
     | Throw e =>
         map step_of (events run) `prefix_of` pipeline_order c
         /\ exists pre last, events run = pre ++ [last]
              /\ Forall (fun ev => ev_error ev = None) pre
              /\ ev_error last = Some e
     end.
Proof.
  cbv zeta. rewrite request_run. cbv zeta.
  set (info := baseUrl c +:+ url).
  pose proof (for_middlewares_shape (middlewares c) 0 info r w) as Hm.
  cbv zeta in Hm. destruct Hm as ((n & Hn & Hsm & Hnm) & Htm & Hom).
  destruct (result (for_middlewares 0 (middlewares c) info r w)) as [[]|e] eqn:Erm;
    cbn [result events].
  2:{ split; [exact Htm |]. split; [| exact Hom].
      rewrite Hsm. unfold pipeline_order. now apply seq_prefix. }
  specialize (Hnm eq_refl). subst n.
  set (wm := final (for_middlewares 0 (middlewares c) info r w)) in *.
  rewrite await_fetcher_event.
  destruct (result (await_fetcher (fetcher c) info r wm)) as [resp|e] eqn:Erf;
    cbn [result events].
  2:{ split.
      - apply Forall_app. split; [exact Htm |].
        constructor; [apply targets_transport | constructor].
      - split.
        + rewrite map_app, Hsm. cbn [map step_of]. unfold pipeline_order.
          apply prefix_app, prefix_cons, prefix_nil.
        + exists (events (for_middlewares 0 (middlewares c) info r w)),
            (EvTransport info r (deref wm r) (Throw e)).
          repeat split; assumption. }
  set (wf := final (await_fetcher (fetcher c) info r wm)) in *.
  pose proof (for_afterwares_shape (afterwares c) 0 r resp info wf) as Ha.
  cbv zeta in Ha. destruct Ha as ((k & Hk & Hsa & Hka) & Hta & Hoa).
  destruct (result (for_afterwares 0 (afterwares c) r resp wf)) as [[]|e] eqn:Era;
    cbn [result events].
  2:{ split.
      - apply Forall_app. split; [exact Htm |].
        constructor; [apply targets_transport | exact Hta].
      - split.
        + rewrite !map_app. cbn [map step_of app]. rewrite Hsm, Hsa.
          unfold pipeline_order. apply prefix_app, prefix_cons.
          now apply seq_prefix.
        + destruct Hoa as (pre & last & Hev & Hpre & Hlast).
          exists (events (for_middlewares 0 (middlewares c) info r w)
                  ++ EvTransport info r (deref wm r) (Ok resp) :: pre), last.
          rewrite Hev. cbn [app]. rewrite <- app_assoc. cbn [app].
          repeat split; [| exact Hlast].
          apply Forall_app. split; [exact Hom |].
          constructor; [reflexivity | exact Hpre]. }
  specialize (Hka eq_refl). subst k.
  split.
  - apply Forall_app. split; [exact Htm |].
    constructor; [apply targets_transport |].
    apply Forall_app. split; [exact Hta |].
    constructor; [apply targets_decode | constructor].
  - destruct (response resp) as [env|e] eqn:Eresp.
    + split.
      * rewrite !map_app. cbn [map step_of app]. rewrite Hsm, Hsa. reflexivity.
      * apply Forall_app. split; [exact Hom |].
        constructor; [reflexivity |].
        apply Forall_app. split; [exact Hoa |].
        constructor; [reflexivity | constructor].
    + split.
      * rewrite !map_app. cbn [map step_of app]. rewrite Hsm, Hsa. reflexivity.
      * exists (events (for_middlewares 0 (middlewares c) info r w)
                ++ EvTransport info r (deref wm r) (Ok resp)
                :: events (for_afterwares 0 (afterwares c) r resp wf)),
          (EvDecode resp (Throw e)).
        split; [now rewrite <- app_assoc | split; [| reflexivity]].
        apply Forall_app. split; [exact Hom |].
        constructor; [reflexivity | exact Hoa].
Qed.
Lemma for_middlewares_nil (i : nat) (info : string) (r : Ref) (w : World) :
  for_middlewares i [] info r w = {| result := Ok (); final := w; events := [] |}.
Proof. reflexivity. Qed.

Lemma first_seen_app {A} (run : Run A) (ev : Event) (tl : list Event) :
  events run = ev :: tl -> first_seen run = snd <$> ev_descriptor ev.
Proof. unfold first_seen. now intros ->. Qed.

(** The first step of the pipeline is given the descriptor as it is when
    [#request] is entered. *)
Lemma request_first_seen (c : Client) (url : string) (r : Ref) (w : World) :
  first_seen (request c url (Some r) w) = Some (deref w r).
Proof.
  destruct (middlewares c) as [|mw rest] eqn:Emws.
  - assert (exists tl, events (request c url (Some r) w)
                       = EvTransport (baseUrl c +:+ url) r (deref w r)
                           (result (await_fetcher (fetcher c) (baseUrl c +:+ url) r w))
                         :: tl) as [tl Htl].
    { rewrite request_run. cbv zeta. rewrite Emws, for_middlewares_nil.
      cbn [result final events app]. rewrite await_fetcher_event.
      destruct (result (await_fetcher _ _ _ _)) as [resp|e]; [| now eexists].
      destruct (result (for_afterwares _ _ _ _ _)); now eexists. }
    now rewrite (first_seen_app _ _ _ Htl).
  - assert (exists out tl, events (request c url (Some r) w)
                           = EvMiddleware 0 (baseUrl c +:+ url) r (deref w r) out :: tl)
      as (out & tl & Htl).
    { rewrite request_run. cbv zeta. rewrite Emws. cbn [for_middlewares].
      rewrite bind_run.
      destruct (mw (baseUrl c +:+ url) r w) as [out w'] eqn:Emw.
      rewrite (await_middleware_eq 0 _ _ _ _ _ _ Emw). cbn [result final events].
      exists out.
      destruct out as [[]|e]; cbn [result final events app]; [| now eexists].
      destruct (result (for_middlewares 1 rest _ r w')); [| now eexists].
      destruct (result (await_fetcher _ _ _ _)); [| now eexists].
      destruct (result (for_afterwares _ _ _ _ _)); now eexists. }
    now rewrite (first_seen_app _ _ _ Htl).
Qed.

Lemma afterware_steps_only (l : list Event) (start k : nat) :
  map step_of l = map SAfterware (seq start k) ->
  forall ev j, ev ∈ l -> step_of ev <> SMiddleware j.
Proof.
  intros H ev j Hin Hj.
  apply list_elem_of_In, (in_map step_of) in Hin. rewrite H, Hj in Hin.
  apply in_map_iff in Hin as (x & Hx & _). discriminate.
Qed.

(** A middleware that raises ends the run: the steps taken are the
    middlewares up to it, and the call rejects with its error. *)
Lemma request_middleware_fault (c : Client) (url : string) (r : Ref) (w : World)
    (i : nat) (info : string) (r' : Ref) (seen : RequestInit) (e : Exn) :
  EvMiddleware i info r' seen (Throw e) ∈ events (request c url (Some r) w) ->
  result (request c url (Some r) w) = Throw e
  /\ map step_of (events (request c url (Some r) w)) = map SMiddleware (seq 0 (S i)).
Proof.
  rewrite request_run. cbv zeta.
  set (inf := baseUrl c +:+ url).
  pose proof (for_middlewares_shape (middlewares c) 0 inf r w) as Hm.
  cbv zeta in Hm. destruct Hm as ((n & Hn & Hsm & Hnm) & _ & Hom).
  destruct (result (for_middlewares 0 (middlewares c) inf r w)) as [[]|e0] eqn:Erm.
  - (* the middlewares all resolved: none of their events carries an
       error, and the later events are not theirs *)
    intros Hin. exfalso.
    assert (Hnot : EvMiddleware i info r' seen (Throw e)
                     ∉ events (for_middlewares 0 (middlewares c) inf r w)).
    { intros H. rewrite Forall_forall in Hom. now specialize (Hom _ H). }
    set (wm := final (for_middlewares 0 (middlewares c) inf r w)) in *.
    rewrite await_fetcher_event in Hin.
    destruct (result (await_fetcher (fetcher c) inf r wm)) as [resp|e1];
      cbn [events] in Hin.
    + set (wf := final (await_fetcher (fetcher c) inf r wm)) in *.
      pose proof (for_afterwares_shape (afterwares c) 0 r resp inf wf) as Ha.
      cbv zeta in Ha. destruct Ha as ((k & _ & Hsa & _) & _ & _).
      pose proof (afterware_steps_only _ _ _ Hsa) as Hafter.
      destruct (result (for_afterwares 0 (afterwares c) r resp wf));
        cbn [events] in Hin;
        repeat (apply elem_of_app in Hin as [Hin|Hin]
                || apply elem_of_cons in Hin as [Hin|Hin]);
        try discriminate; try (now apply Hnot);
        try (now apply (Hafter _ i Hin)); try (now apply elem_of_nil in Hin).
    + repeat (apply elem_of_app in Hin as [Hin|Hin]
              || apply elem_of_cons in Hin as [Hin|Hin]);
        try discriminate; try (now apply Hnot); try (now apply elem_of_nil in Hin).
  - cbn [result events]. intros Hin.
    destruct Hom as (pre & last & Hev & Hpre & Hlast).
    rewrite Hev in Hin. apply elem_of_app in Hin as [Hin|Hin].
    + rewrite Forall_forall in Hpre. now specialize (Hpre _ Hin).
    + apply list_elem_of_singleton in Hin. subst last. cbn in Hlast.
      injection Hlast as ->. split; [reflexivity |].
      rewrite Hsm. rewrite Hev, map_app in Hsm. cbn [map step_of] in Hsm.
      symmetry in Hsm. apply seq_snoc_inj in Hsm; [| now intros ? ? [= ->]].
      cbn in Hsm. now subst n.
Qed.
(** Once the middlewares have raised, the rest of the client plays no
    part: the run is the same with any transport and any afterwares. *)
Lemma request_fault_independent (c c' : Client) (url : string) (r : Ref) (w : World)
    (e : Exn) :
  baseUrl c = baseUrl c' ->
  middlewares c = middlewares c' ->
  result (for_middlewares 0 (middlewares c) (baseUrl c +:+ url) r w) = Throw e ->
  request c url (Some r) w = request c' url (Some r) w.
Proof.
  intros Hb Hm H. rewrite !request_run. cbv zeta.
  rewrite <- Hb, <- Hm, H. reflexivity.
Qed.
End Pipeline.

(* ================================================================== *)
(** ** The verb methods *)
(* ================================================================== *)

Section Verbs.
Import Methods Serializer.

Lemma lift_ok {A} (r : Result A) (a : A) (w : World) :
  r = Ok a -> lift r w = {| result := Ok a; final := w; events := [] |}.
Proof. now intros ->. Qed.

Lemma update_update (w : World) (r : Ref) (f g : RequestInit -> RequestInit) :
  update (update w r f) r g = with_object w r (g (f (deref w r))).
Proof.
  unfold update. now rewrite deref_with_object, with_object_twice.
Qed.

Lemma deref_update (w : World) (r : Ref) (f : RequestInit -> RequestInit) :
  deref (update w r f) r = f (deref w r).
Proof. unfold update. apply deref_with_object. Qed.

(** A verb method serializes its options (which cannot fail), writes the
    method, the headers and, except for GET, the body into the
    descriptor object, and enters [#request] with that object. *)
Lemma verb_enters_pipeline (v : RestMethod) (c : Client) (urlPath : string)
    (options : RequestOptions) (requestInit : option Ref) (w : World) :
  exists sb p q,
    serializeRequestBody (content options) = Ok sb
    /\ serializePathParams urlPath (path options) = Ok p
    /\ serializeQueryParams (query options) = Ok q
    /\ verb v c urlPath options requestInit w
       = request c (p +:+ q) (Some (fst (target requestInit w)))
           (with_object w (fst (target requestInit w))
              (built_descriptor v sb
                 (deref (snd (target requestInit w)) (fst (target requestInit w))))).
Proof.
  destruct (serializers_total urlPath (path options) (query options) (content options))
    as ([p Hp] & [q Hq] & [sb Hsb]).
  exists sb, p, q. repeat split; try assumption.
  rewrite <- with_object_target.
  destruct requestInit as [r|]; destruct v; cbn [verb target fst snd];
    unfold get, post, put, delete;
    rewrite (silent_bind _ _ _ _ _ (lift_ok _ sb w Hsb));
    rewrite (silent_bind _ _ _ _ _ (lift_ok _ p w Hp));
    rewrite (silent_bind _ _ _ _ _ (lift_ok _ q w Hq));
    (erewrite (silent_bind (nullish_or_new _)) by reflexivity);
    (erewrite (silent_bind (assign _ _)) by reflexivity);
    (erewrite (silent_bind (read_headers _)) by reflexivity);
    (erewrite (silent_bind (assign _ _)) by reflexivity);
    try (erewrite (silent_bind (assign _ _)) by reflexivity);
    rewrite ?or_empty_string_id, ?deref_update, ?update_update;
    unfold update; rewrite ?deref_with_object, ?with_object_twice;
    reflexivity.
Qed.
End Verbs.

(* ================================================================== *)
(** ** Every event is the step the specification prescribes *)
(* ================================================================== *)

Section Registered.
Import Methods.

Lemma steps_in (f : nat -> Step) (l : list Event) (start k : nat) (ev : Event) :
  map step_of l = map f (seq start k) -> ev ∈ l -> exists j, step_of ev = f j.
Proof.
  intros H Hin. apply list_elem_of_In, (in_map step_of) in Hin. rewrite H in Hin.
  apply in_map_iff in Hin as (j & Hj & _). eauto.
Qed.

Lemma for_middlewares_chain (mws : list Middleware) (i : nat) (info : string) (r : Ref)
    (w : World) :
  result (for_middlewares i mws info r w) = Ok () ->
  final (for_middlewares i mws info r w) = chain_world mws info r w.
Proof.
  revert i w. induction mws as [|mw rest IH]; intros i w; [reflexivity |].
  cbn [for_middlewares]. rewrite bind_run.
  destruct (mw info r w) as [[[]|e] w'] eqn:Emw;
    rewrite (await_middleware_eq i _ _ _ _ _ _ Emw); cbn [result final events];
    [| discriminate].
  intros H. unfold chain_world. cbn [fold_left]. rewrite Emw. cbn [snd].
  now apply IH.
Qed.

Lemma for_afterwares_chain (aws : list Afterware) (i : nat) (r : Ref) (resp : Response)
    (w : World) :
  result (for_afterwares i aws r resp w) = Ok () ->
  final (for_afterwares i aws r resp w) = after_world aws r resp w.
Proof.
  revert i w. induction aws as [|aw rest IH]; intros i w; [reflexivity |].
  cbn [for_afterwares]. rewrite bind_run.
  destruct (aw r resp w) as [[[]|e] w'] eqn:Eaw;
    rewrite (await_afterware_eq i _ _ _ _ _ _ Eaw); cbn [result final events];
    [| discriminate].
  intros H. unfold after_world. cbn [fold_left]. rewrite Eaw. cbn [snd].
  now apply IH.
Qed.

Lemma chain_world_snoc (mws : list Middleware) (mw : Middleware) (info : string)
    (r : Ref) (w : World) :
  chain_world (mws ++ [mw]) info r w = snd (mw info r (chain_world mws info r w)).
Proof. unfold chain_world. now rewrite fold_left_app. Qed.

Lemma after_world_snoc (aws : list Afterware) (aw : Afterware) (r : Ref)
    (resp : Response) (w : World) :
  after_world (aws ++ [aw]) r resp w = snd (aw r resp (after_world aws r resp w)).
Proof. unfold after_world. now rewrite fold_left_app. Qed.

(** The loop over the middlewares invokes the registered middlewares, one
    after the other, each in the world the ones before it left. *)
Lemma for_middlewares_registered (c : Client) (info : string) (r : Ref) (w0 : World)
    (rest done : list Middleware) :
  middlewares c = done ++ rest ->
  Forall (as_registered c info r w0)
    (events (for_middlewares (length done) rest info r (chain_world done info r w0)))
  /\ final (for_middlewares (length done) rest info r (chain_world done info r w0))
     = match last (events (for_middlewares (length done) rest info r
                             (chain_world done info r w0))) with
       | Some ev => world_after c info r w0 ev
       | None => chain_world done info r w0
       end.
Proof.
  revert done. induction rest as [|mw rest IH]; intros done Hc.
  - split; [constructor | reflexivity].
  - cbn [for_middlewares]. rewrite bind_run.
    set (w := chain_world done info r w0) in *.
    destruct (mw info r w) as [out w'] eqn:Emw.
    rewrite (await_middleware_eq _ _ _ _ _ _ _ Emw). cbn [result final events].
    assert (Hlook : middlewares c !! length done = Some mw).
    { rewrite Hc. now apply list_lookup_middle. }
    assert (Htake : take (length done) (middlewares c) = done).
    { rewrite Hc. apply take_app_length. }
    assert (Hev : as_registered c info r w0
                    (EvMiddleware (length done) info r (deref w r) out)).
    { unfold as_registered. split; [reflexivity |]. split; [reflexivity |].
      exists mw. rewrite Htake. fold w. rewrite Emw. now split. }
    assert (Hw' : world_after c info r w0
                    (EvMiddleware (length done) info r (deref w r) out) = w').
    { unfold world_after. rewrite (take_S_r _ _ _ Hlook), Htake, chain_world_snoc.
      fold w. now rewrite Emw. }
    destruct out as [[]|e].
    + specialize (IH (done ++ [mw])). rewrite <- app_assoc in IH.
      specialize (IH Hc). rewrite length_app in IH. cbn [length] in IH.
      rewrite Nat.add_1_r, chain_world_snoc in IH. fold w in IH.
      rewrite Emw in IH. cbn [snd] in IH. destruct IH as [IHall IHfinal].
      cbn [app]. split; [now constructor |].
      rewrite IHfinal.
      destruct (events (for_middlewares (S (length done)) rest info r w')) as [|e1 l].
      * cbn [app final events last]. now symmetry.
      * cbn [app final events]. rewrite last_cons_cons.
        destruct (last (e1 :: l)) as [ev|] eqn:El; [reflexivity |].
        now apply last_None in El.
    + split; [constructor; [exact Hev | constructor] | now symmetry].
Qed.

(** The loop over the afterwares invokes the registered afterwares, one
    after the other, on the response the transport resolved to. *)
Lemma for_afterwares_registered (c : Client) (info : string) (r : Ref) (w0 : World)
    (resp : Response) (wf : World) (rest done : list Afterware) :
  fetcher c info r (chain_world (middlewares c) info r w0) = (Ok resp, wf) ->
  afterwares c = done ++ rest ->
  Forall (as_registered c info r w0)
    (events (for_afterwares (length done) rest r resp (after_world done r resp wf)))
  /\ final (for_afterwares (length done) rest r resp (after_world done r resp wf))
     = match last (events (for_afterwares (length done) rest r resp
                             (after_world done r resp wf))) with
       | Some ev => world_after c info r w0 ev
       | None => after_world done r resp wf
       end.
Proof.
  intros Hsent. revert done. induction rest as [|aw rest IH]; intros done Hc.
  - split; [constructor | reflexivity].
  - cbn [for_afterwares]. rewrite bind_run.
    set (w := after_world done r resp wf) in *.
    destruct (aw r resp w) as [out w'] eqn:Eaw.
    rewrite (await_afterware_eq _ _ _ _ _ _ _ Eaw). cbn [result final events].
    assert (Hlook : afterwares c !! length done = Some aw).
    { rewrite Hc. now apply list_lookup_middle. }
    assert (Htake : take (length done) (afterwares c) = done).
    { rewrite Hc. apply take_app_length. }
    assert (Hev : as_registered c info r w0
                    (EvAfterware (length done) r (deref w r) resp out)).
    { unfold as_registered. rewrite Hsent. cbn [fst snd].
      split; [reflexivity |]. split; [reflexivity |].
      exists aw. rewrite Htake. fold w. rewrite Eaw. now split. }
    assert (Hw' : world_after c info r w0
                    (EvAfterware (length done) r (deref w r) resp out) = w').
    { unfold world_after. rewrite Hsent. cbn [snd].
      rewrite (take_S_r _ _ _ Hlook), Htake, after_world_snoc.
      fold w. now rewrite Eaw. }
    destruct out as [[]|e].
    + specialize (IH (done ++ [aw])). rewrite <- app_assoc in IH.
      specialize (IH Hc). rewrite length_app in IH. cbn [length] in IH.
      rewrite Nat.add_1_r, after_world_snoc in IH. fold w in IH.
      rewrite Eaw in IH. cbn [snd] in IH. destruct IH as [IHall IHfinal].
      cbn [app]. split; [now constructor |].
      rewrite IHfinal.
      destruct (events (for_afterwares (S (length done)) rest r resp w')) as [|e1 l].
      * cbn [app final events last]. now symmetry.
      * cbn [app final events]. rewrite last_cons_cons.
        destruct (last (e1 :: l)) as [ev|] eqn:El; [reflexivity |].
        now apply last_None in El.
    + split; [constructor; [exact Hev | constructor] | now symmetry].
Qed.
(** The whole pipeline: every event of a run is the step the
    specification prescribes at its position, and the world the run
    leaves is the one its last step leaves. *)
Lemma request_registered (c : Client) (url : string) (r : Ref) (w : World) :
  Forall (as_registered c (baseUrl c +:+ url) r w) (events (request c url (Some r) w))
  /\ exists ev, last (events (request c url (Some r) w)) = Some ev
                /\ final (request c url (Some r) w)
                   = world_after c (baseUrl c +:+ url) r w ev.
Proof.
  rewrite request_run. cbv zeta.
  set (inf := baseUrl c +:+ url).
  pose proof (for_middlewares_registered c inf r w (middlewares c) [] eq_refl)
    as [Hmall Hmfinal].
  cbn [length] in Hmall, Hmfinal.
  change (chain_world [] inf r w) with w in Hmall, Hmfinal.
  pose proof (for_middlewares_shape (middlewares c) 0 inf r w) as Hm.
  cbv zeta in Hm. destruct Hm as (_ & _ & Hom).
  pose proof (for_middlewares_chain (middlewares c) 0 inf r w) as Hchain.
  destruct (result (for_middlewares 0 (middlewares c) inf r w)) as [[]|e0].
  2:{ cbn [events final]. split; [exact Hmall |].
      destruct Hom as (pre & lst & Hev & _ & _).
      rewrite Hev, last_snoc in Hmfinal. rewrite Hev, last_snoc. eauto. }
  rewrite (Hchain eq_refl).
  set (wm := chain_world (middlewares c) inf r w) in *.
  destruct (fetcher c inf r wm) as [out wf] eqn:Ef.
  rewrite (await_fetcher_eq _ _ _ _ _ _ Ef). cbn [result final events].
  assert (Hsent : as_registered c inf r w (EvTransport inf r (deref wm r) out)).
  { unfold as_registered. fold wm. rewrite Ef. now repeat split. }
  destruct out as [resp|e1].
  2:{ cbn [events final]. split.
      - apply Forall_app. split; [exact Hmall | now constructor].
      - eexists. rewrite last_snoc. split; [reflexivity |].
        unfold world_after. fold wm. now rewrite Ef. }
  pose proof (for_afterwares_registered c inf r w resp wf (afterwares c) [] Ef eq_refl)
    as [Haall Hafinal].
  cbn [length] in Haall, Hafinal.
  change (after_world [] r resp wf) with wf in Haall, Hafinal.
  pose proof (for_afterwares_shape (afterwares c) 0 r resp inf wf) as Ha.
  cbv zeta in Ha. destruct Ha as (_ & _ & Hoa).
  pose proof (for_afterwares_chain (afterwares c) 0 r resp wf) as Hachain.
  destruct (result (for_afterwares 0 (afterwares c) r resp wf)) as [[]|e2];
    cbn [events final].
  - split.
    + apply Forall_app. split; [exact Hmall |].
      constructor; [exact Hsent |].
      apply Forall_app. split; [exact Haall |].
      constructor; [| constructor].
      unfold as_registered. fold wm. rewrite Ef. now split.
    + exists (EvDecode resp (response resp)). split.
      * change (events (for_middlewares 0 (middlewares c) inf r w)
                ++ [EvTransport inf r (deref wm r) (Ok resp)]
                ++ events (for_afterwares 0 (afterwares c) r resp wf)
                ++ [EvDecode resp (response resp)])
          with (events (for_middlewares 0 (middlewares c) inf r w)
                ++ (EvTransport inf r (deref wm r) (Ok resp)
                    :: events (for_afterwares 0 (afterwares c) r resp wf))
                ++ [EvDecode resp (response resp)]).
        rewrite app_assoc. apply last_snoc.
      * rewrite (Hachain eq_refl). unfold world_after. fold wm. now rewrite Ef.
  - destruct Hoa as (pre & lst & Hev & _ & _).
    split.
    + apply Forall_app. split; [exact Hmall |].
      constructor; [exact Hsent | exact Haall].
    + exists lst. rewrite Hev, last_snoc in Hafinal. split; [| exact Hafinal].
      rewrite Hev.
      change (events (for_middlewares 0 (middlewares c) inf r w)
              ++ [EvTransport inf r (deref wm r) (Ok resp)] ++ pre ++ [lst])
        with (events (for_middlewares 0 (middlewares c) inf r w)
              ++ (EvTransport inf r (deref wm r) (Ok resp) :: pre) ++ [lst]).
      rewrite app_assoc. apply last_snoc.
Qed.





Lemma response_requestResponse (r : Response) (env : Envelope) :
  response r = Ok env -> requestResponse env = r.
Proof.
  unfold response. destruct (Response_body r); [destruct (Response_json r) |];
    cbn; now intros [= <-].
Qed.

Lemma entry_object_target (requestInit : option Ref) (w : World) :
  deref (snd (target requestInit w)) (fst (target requestInit w))
  = entry_object requestInit w.
Proof.
  destruct requestInit as [r|]; [reflexivity |]. apply deref_with_object.
Qed.

Lemma headers_literal_computed (contentType : string) (h : option HeadersInit) :
  spread h !! "Content-Type" = None ->
  headers_literal contentType h !! "Content-Type" = Some (HVStr contentType).
Proof.
  intros H. unfold headers_literal. rewrite lookup_union, H, lookup_singleton_eq.
  reflexivity.
Qed.
End Registered.

(* ================================================================== *)
(** ** The pipeline against the specification *)
(* ================================================================== *)

Section PipelineClaims.
Import Methods Serializer.

(** C1. For every call through a verb method the steps run in the order
    middlewares (in registration order), transport, afterwares (in
    registration order), decoding, each on the world the step before it
    left.  A call that resolves ran exactly this sequence and no step
    raised; a call that rejects ran a prefix of it, every step before the
    last resolved, and the last one raised the error the call rejects
    with.  Every step is the registered one: the [i]-th middleware step
    is the invocation of the [i]-th registered middleware after the [i]
    middlewares before it, the transport step the invocation of the
    transport after all middlewares, the [j]-th afterware step the
    invocation of the [j]-th registered afterware on the response of the
    transport after the [j] afterwares before it, the decoding step the
    decoding of that response; and the world the call leaves is the one
    its last step leaves. *)
Theorem call_order (v : RestMethod) (c : Client) (urlPath : string)
    (options : RequestOptions) (requestInit : option Ref) (w : World) :
  let run := verb v c urlPath options requestInit w in
  match result run with
  | Ok _ =>
      map step_of (events run) = pipeline_order c
      /\ Forall (fun ev => ev_error ev = None) (events run)
  | Throw e =>
      map step_of (events run) `prefix_of` pipeline_order c
      /\ exists pre last, events run = pre ++ [last]
           /\ Forall (fun ev => ev_error ev = None) pre
           /\ ev_error last = Some e
  end
  /\ exists sb p q,
       serializeRequestBody (content options) = Ok sb
       /\ serializePathParams urlPath (path options) = Ok p
       /\ serializeQueryParams (query options) = Ok q
       /\ let r := fst (target requestInit w) in
          let info := baseUrl c +:+ p +:+ q in
          let w1 := with_object w r
                      (built_descriptor v sb (deref (snd (target requestInit w)) r)) in
          Forall (as_registered c info r w1) (events run)
          /\ exists ev, last (events run) = Some ev
                        /\ final run = world_after c info r w1 ev.
Proof.
  cbv zeta.
  destruct (verb_enters_pipeline v c urlPath options requestInit w)
    as (sb & p & q & Hsb & Hp & Hq & ->).
  split; [exact (proj2 (request_shape c (p +:+ q) _ _)) |].
  exists sb, p, q. repeat split; try assumption.
  - exact (proj1 (request_registered c (p +:+ q) _ _)).
  - exact (proj2 (request_registered c (p +:+ q) _ _)).
Qed.

(** The example of the specification: middlewares [m1, m2] and afterwares
    [a1, a2] around the transport. *)
Example call_order_example :
  effects (final (get hooked_client "/items" no_options None one_object))
  = ["m1"; "m2"; "<transport>"; "a1"; "a2"]
  /\ map step_of (events (get hooked_client "/items" no_options None one_object))
     = [SMiddleware 0; SMiddleware 1; STransport; SAfterware 0; SAfterware 1; SDecode].
Proof. split; reflexivity. Qed.

(** C2. When a middleware raises, the call rejects with exactly that
    error, and the steps of the call are the middlewares up to the
    raising one and nothing else: the transport is not invoked, and no
    later middleware and no afterware runs. *)
Theorem middleware_fault_halts (v : RestMethod) (c : Client) (urlPath : string)
    (options : RequestOptions) (requestInit : option Ref) (w : World)
    (i : nat) (info : string) (r : Ref) (seen : RequestInit) (e : Exn) :
  EvMiddleware i info r seen (Throw e)
    ∈ events (verb v c urlPath options requestInit w) ->
  result (verb v c urlPath options requestInit w) = Throw e
  /\ map step_of (events (verb v c urlPath options requestInit w))
     = map SMiddleware (seq 0 (S i))
  /\ (STransport ∉ map step_of (events (verb v c urlPath options requestInit w)))
  /\ (forall j, SAfterware j ∉ map step_of (events (verb v c urlPath options requestInit w)))
  /\ (forall j, i < j ->
        SMiddleware j ∉ map step_of (events (verb v c urlPath options requestInit w))).
Proof.
  destruct (verb_enters_pipeline v c urlPath options requestInit w)
    as (sb & p & q & _ & _ & _ & ->).
  intros Hin. apply request_middleware_fault in Hin as [Hres Hsteps].
  split; [exact Hres |]. split; [exact Hsteps |].
  rewrite Hsteps. repeat split.
  - intros H%list_elem_of_In%in_map_iff. now destruct H as (x & Hx & _).
  - intros j H%list_elem_of_In%in_map_iff. now destruct H as (x & Hx & _).
  - intros j Hj H%list_elem_of_In%in_map_iff.
    destruct H as (x & [= ->] & Hx%in_seq). lia.
Qed.

Lemma middleware_fault_halts_witness :
  result (get guarded_client "/items" no_options None one_object)
  = Throw (UserError "denied")
  /\ map step_of (events (get guarded_client "/items" no_options None one_object))
     = [SMiddleware 0; SMiddleware 1]
  /\ effects (final (get guarded_client "/items" no_options None one_object)) = ["m1"].
Proof.
  assert (Hin : EvMiddleware 1 "https://api.test/items" 2%positive
                  (built_descriptor M_get default_body empty_object)
                  (Throw (UserError "denied"))
                ∈ events (verb M_get guarded_client "/items" no_options None one_object)).
  { vm_compute. apply list_elem_of_further, list_elem_of_here. }
  pose proof (middleware_fault_halts M_get guarded_client "/items" no_options None
                one_object 1 _ _ _ _ Hin) as (Hres & Hsteps & _).
  split; [exact Hres |]. split; [exact Hsteps | reflexivity].
Defined.

(** C9 as stated fails on its last clause: the response in the envelope
    still exposes the JSON accessor of the original response.  The
    accessor of the decoded response answers as the original one, and
    two responses that differ in their JSON accessor only give envelopes
    with different responses. *)
Lemma envelope_keeps_json_accessor :
  (exists env,
     response json_response = Ok env
     /\ Response_json (requestResponse env) = Ok (JObj [("id", JNum 7)]))
  /\ (exists env env',
        response json_response = Ok env
        /\ response other_json_response = Ok env'
        /\ Response_status json_response = Response_status other_json_response
        /\ Response_body json_response = Response_body other_json_response
        /\ requestResponse env <> requestResponse env').
Proof.
  split.
  - eexists. split; reflexivity.
  - eexists _, _. repeat split; discriminate.
Qed.

(** C9, amended. The decoder returns the envelope made of the decoded
    data and of the response object itself: the data is the empty object
    when the response has no body, and the value [json()] resolves to
    when it has one; when it has one and [json()] rejects, the decoder
    rejects with that error.  The response of the envelope is the
    original one, with every field of it, the JSON accessor included. *)
Theorem response_decoding (r : Response) :
  (Response_body r = None ->
     response r = Ok {| data := JObj []; requestResponse := r |})
  /\ (forall v, is_Some (Response_body r) -> Response_json r = Ok v ->
        response r = Ok {| data := v; requestResponse := r |})
  /\ (forall e, is_Some (Response_body r) -> Response_json r = Throw e ->
        response r = Throw e)
  /\ (forall env, response r = Ok env ->
        requestResponse env = r
        /\ Response_status (requestResponse env) = Response_status r
        /\ Response_body (requestResponse env) = Response_body r
        /\ Response_json (requestResponse env) = Response_json r).
Proof.
  split; [| split; [| split]].
  - unfold response. now intros ->.
  - unfold response. intros v [stream ->] ->. reflexivity.
  - unfold response. intros e [stream ->] ->. reflexivity.
  - intros env H. now rewrite (response_requestResponse _ _ H).
Qed.

Lemma response_decoding_witness :
  response json_response
  = Ok {| data := JObj [("id", JNum 7)]; requestResponse := json_response |}
  /\ response no_content
     = Ok {| data := JObj []; requestResponse := no_content |}
  /\ response html_response = Throw SyntaxError.
Proof.
  split; [| split].
  - exact (proj1 (proj2 (response_decoding json_response))
             (JObj [("id", JNum 7)]) (mk_is_Some _ _ eq_refl) eq_refl).
  - exact (proj1 (response_decoding no_content) eq_refl).
  - exact (proj1 (proj2 (proj2 (response_decoding html_response)))
             SyntaxError (mk_is_Some _ _ eq_refl) eq_refl).
Defined.

(** A body that [json()] cannot decode rejects the decoding step. *)
Lemma response_decode_fault (r : Response) (stream : string) (e : Exn) :
  Response_body r = Some stream -> Response_json r = Throw e ->
  response r = Throw e.
Proof. unfold response. now intros -> ->. Qed.
End PipelineClaims.

(* ================================================================== *)
(** ** The request descriptor against the specification *)
(* ================================================================== *)

Section DescriptorClaims.
Import Methods Serializer.

(** The header literal on a plain headers object: the caller's entries,
    and the computed [Content-Type] unless the caller has one. *)
Lemma headers_literal_plain (contentType : string) (hs : gmap string HeaderValue)
    (k : string) :
  headers_literal contentType (Some (PlainHeaders hs)) !! k
  = match hs !! k with
    | Some value => Some value
    | None => if decide (k = "Content-Type") then Some (HVStr contentType) else None
    end.
Proof.
  unfold headers_literal. cbn [spread]. rewrite lookup_union.
  destruct (hs !! k) as [value|] eqn:E.
  - now destruct ({[ "Content-Type" := HVStr contentType ]} !! k).
  - rewrite left_id by apply _. case_decide as Hk.
    + subst k. apply lookup_singleton_eq.
    + now apply lookup_singleton_ne.
Qed.

Lemma headers_literal_has_content_type (contentType : string) (h : option HeadersInit) :
  is_Some (headers_literal contentType h !! "Content-Type").
Proof.
  unfold headers_literal. rewrite lookup_union, lookup_singleton_eq.
  destruct (spread h !! "Content-Type"); eauto.
Qed.

Lemma headers_literal_none (contentType : string) :
  headers_literal contentType None = {[ "Content-Type" := HVStr contentType ]}.
Proof. unfold headers_literal. cbn [spread]. apply (left_id _ _). Qed.

(** The descriptor a verb method hands to the pipeline. *)
Lemma verb_first_seen (v : RestMethod) (c : Client) (urlPath : string)
    (options : RequestOptions) (requestInit : option Ref) (w : World) :
  exists sb,
    serializeRequestBody (content options) = Ok sb
    /\ first_seen (verb v c urlPath options requestInit w)
       = Some (built_descriptor v sb
                 (deref (snd (target requestInit w)) (fst (target requestInit w)))).
Proof.
  destruct (verb_enters_pipeline v c urlPath options requestInit w)
    as (sb & p & q & Hsb & _ & _ & ->).
  exists sb. split; [exact Hsb |].
  now rewrite request_first_seen, deref_with_object.
Qed.

(** C7. None of the three serializers throws to its caller: each returns
    the value of its [try] block, and its documented default (the
    original template, the empty string, [application/json] with the
    body of an empty object) when that block raises.  Hence a verb
    method always reaches the pipeline, whatever its options are. *)
Theorem serializers_never_throw (template : string) (params query content : option JsMap) :
  match serializePathParams_try template params with
  | Ok s => serializePathParams template params = Ok s
  | Throw _ => serializePathParams template params = Ok template
  end
  /\ match serializeQueryParams_try query with
     | Ok s => serializeQueryParams query = Ok s
     | Throw _ => serializeQueryParams query = Ok ""
     end
  /\ match serializeRequestBody_try content with
     | Ok b => serializeRequestBody content = Ok b
     | Throw _ => serializeRequestBody content = Ok default_body
     end
  /\ forall v c requestInit w,
       exists D,
         first_seen (verb v c template
                       {| content := content; path := params; query := query |}
                       requestInit w) = Some D.
Proof.
  unfold serializePathParams, serializeQueryParams, serializeRequestBody.
  repeat split.
  - destruct (serializePathParams_try template params); reflexivity.
  - destruct (serializeQueryParams_try query); reflexivity.
  - destruct (serializeRequestBody_try content); reflexivity.
  - intros v c requestInit w.
    destruct (verb_first_seen v c template
                {| content := content; path := params; query := query |} requestInit w)
      as (sb & _ & H).
    eauto.
Qed.

(** C6 as stated fails when the overrides object already has a body: a
    caller who passes the same overrides object to a POST and then to a
    GET sends the body of the POST with the GET. *)
Lemma get_after_post_has_body :
  body <$> first_seen (get plain_client "/items" no_options (Some 1%positive) after_post)
  = Some (Some ("{" +:+ q "x" +:+ ":1}"))
  /\ method <$> first_seen (get plain_client "/items" no_options (Some 1%positive) after_post)
     = Some (Some "GET").
Proof. split; reflexivity. Qed.

(** C6, amended. A GET never writes the body: its descriptor carries
    exactly the body the overrides object has on entry, hence none when
    the caller passes no overrides or overrides without a body (as their
    type prescribes), whatever the content option is.  Its headers are
    the literal made of the computed [Content-Type] and the caller's
    headers: a [Content-Type] entry is always present, and it is the
    computed one whenever the caller's headers have no such entry of
    their own.  The descriptors of POST, PUT and DELETE always carry the
    serialized body. *)
Theorem verb_body (c : Client) (urlPath : string) (options : RequestOptions)
    (requestInit : option Ref) (w : World) :
  exists sb,
    serializeRequestBody (content options) = Ok sb
    /\ (exists D,
          first_seen (get c urlPath options requestInit w) = Some D
          /\ body D = body (entry_object requestInit w)
          /\ (body (entry_object requestInit w) = None -> body D = None)
          /\ headers D
             = Some (PlainHeaders
                       (headers_literal (contentType sb)
                          (headers (entry_object requestInit w))))
          /\ is_Some (headers_literal (contentType sb)
                        (headers (entry_object requestInit w)) !! "Content-Type")
          /\ (spread (headers (entry_object requestInit w)) !! "Content-Type" = None ->
              headers_literal (contentType sb)
                (headers (entry_object requestInit w)) !! "Content-Type"
              = Some (HVStr (contentType sb))))
    /\ (forall v, v <> M_get ->
          exists D,
            first_seen (verb v c urlPath options requestInit w) = Some D
            /\ body D = requestBody sb).
Proof.
  destruct (serializers_total urlPath (path options) (query options) (content options))
    as (_ & _ & [sb Hsb]).
  exists sb. split; [exact Hsb |]. split.
  - destruct (verb_first_seen M_get c urlPath options requestInit w)
      as (sb' & Hsb' & Hseen).
    rewrite Hsb in Hsb'. injection Hsb' as <-.
    rewrite entry_object_target in Hseen.
    eexists. split; [exact Hseen |]. cbn [built_descriptor body headers].
    repeat split.
    + now intros ->.
    + apply headers_literal_has_content_type.
    + apply headers_literal_computed.
  - intros v Hv.
    destruct (verb_first_seen v c urlPath options requestInit w)
      as (sb' & Hsb' & Hseen).
    rewrite Hsb in Hsb'. injection Hsb' as <-.
    eexists. split; [exact Hseen |]. now destruct v.
Qed.

Lemma verb_body_witness :
  body <$> first_seen (get plain_client "/items" item_options (Some 1%positive)
                         one_object)
  = Some None
  /\ body <$> first_seen (post plain_client "/items" item_options (Some 1%positive)
                            one_object)
     = Some (Some ("{" +:+ q "x" +:+ ":1}"))
  /\ body <$> first_seen (post plain_client "/items" item_options (Some 1%positive)
                            after_post)
     = Some (Some ("{" +:+ q "x" +:+ ":1}")).
Proof.
  destruct (verb_body plain_client "/items" item_options (Some 1%positive) one_object)
    as (sb & Hsb & (D & Hseen & _ & Hb & _) & Hothers).
  destruct (verb_body plain_client "/items" item_options (Some 1%positive) after_post)
    as (sb2 & Hsb2 & _ & Hothers2).
  vm_compute in Hsb. injection Hsb as <-.
  vm_compute in Hsb2. injection Hsb2 as <-.
  split; [| split].
  - rewrite Hseen. cbn [fmap option_fmap option_map]. now rewrite Hb.
  - destruct (Hothers M_post ltac:(discriminate)) as (D' & Hseen' & Hb').
    change (verb M_post) with post in Hseen'. rewrite Hseen'.
    cbn [fmap option_fmap option_map]. now rewrite Hb'.
  - destruct (Hothers2 M_post ltac:(discriminate)) as (D' & Hseen' & Hb').
    change (verb M_post) with post in Hseen'. rewrite Hseen'.
    cbn [fmap option_fmap option_map]. now rewrite Hb'.
Defined.

(** C8 fails when the caller's headers are an instance of [Headers]: the
    spread copies none of its entries, so the caller's [Authorization] is
    lost and the caller's [Content-Type] does not override the computed
    one. *)
Theorem headers_instance_dropped :
  headers <$> first_seen (get plain_client "/items" no_options (Some 1%positive)
                            headers_instance_world)
  = Some (Some (PlainHeaders {[ "Content-Type" := HVStr "application/json" ]}))
  /\ headers_literal "application/json"
       (headers (deref headers_instance_world 1%positive)) !! "Authorization" = None
  /\ headers_literal "application/json"
       (headers (deref headers_instance_world 1%positive)) !! "Content-Type"
     = Some (HVStr "application/json").
Proof. repeat split; reflexivity. Qed.



(** With hooks and a transport that leave the object alone, the caller
    finds its overrides object changed after the call. *)
Example overrides_changed_after_call :
  deref one_object 1%positive = empty_object
  /\ deref after_post 1%positive
     = {| method := Some "POST";
          headers := Some (PlainHeaders {[ "Content-Type" := HVStr "application/json" ]});
          body := Some ("{" +:+ q "x" +:+ ":1}");
          other := ∅ |}.
Proof. split; reflexivity. Qed.
End DescriptorClaims.

(* ================================================================== *)
(** ** Further properties of the serializers *)
(* ================================================================== *)

Section SerializerExtras.
Import Serializer.

Lemma ToString_cases (v : JsValue) :
  (exists t, ToString v = Ok t) \/ (exists e, ToString v = Throw e).
Proof. destruct (ToString v); eauto. Qed.

Lemma String_replace_ok (s pattern : string) (v : JsValue) (t : string) :
  ToString v = Ok t -> exists s', String_replace s pattern v = Ok s'.
Proof. intros H. unfold String_replace. rewrite H. cbn. eauto. Qed.

Lemma String_replace_throw (s pattern : string) (v : JsValue) (e : Exn) :
  ToString v = Throw e -> String_replace s pattern v = Throw e.
Proof. intros H. unfold String_replace. now rewrite H. Qed.

Lemma reduce_path_throws (entries : JsMap) (acc : string) :
  Exists unstringifiable entries ->
  exists e, reduce path_step entries acc = Throw e.
Proof.
  intros H. revert acc. induction H as [[k v] rest [e He]|[k v] rest _ IH]; intros acc.
  - rewrite reduce_cons.
    change (path_step acc (k, v)) with (String_replace acc ("{" +:+ k +:+ "}") v).
    cbn [snd] in He. rewrite (String_replace_throw _ _ _ _ He). eauto.
  - rewrite reduce_cons.
    change (path_step acc (k, v)) with (String_replace acc ("{" +:+ k +:+ "}") v).
    destruct (ToString_cases v) as [[t Ht]|[e He]].
    + destruct (String_replace_ok acc ("{" +:+ k +:+ "}") v t Ht) as [s' ->].
      rewrite bind_Ok. apply IH.
    + rewrite (String_replace_throw _ _ _ _ He). eauto.
Qed.

Lemma reduce_path_ok (entries : JsMap) (acc : string) :
  Forall (fun entry => ~ unstringifiable entry) entries ->
  exists s, reduce path_step entries acc = Ok s.
Proof.
  intros H. revert acc. induction H as [|[k v] rest Hv _ IH]; intros acc.
  - now exists acc.
  - rewrite reduce_cons.
    change (path_step acc (k, v)) with (String_replace acc ("{" +:+ k +:+ "}") v).
    destruct (ToString_cases v) as [[t Ht]|He]; [| now destruct Hv].
    destruct (String_replace_ok acc ("{" +:+ k +:+ "}") v t Ht) as [s' ->].
    rewrite bind_Ok. apply IH.
Qed.

Lemma reduce_query_throws (entries : JsMap) (acc : string) :
  Exists unstringifiable entries ->
  exists e, reduce query_step entries acc = Throw e.
Proof.
  intros H. revert acc. induction H as [[k v] rest [e He]|[k v] rest _ IH]; intros acc.
  - rewrite reduce_cons.
    change (query_step acc (k, v))
      with (ToString v ≫= fun t => Ok (acc +:+ k +:+ "=" +:+ t +:+ "&")).
    cbn [snd] in He. rewrite He. eauto.
  - rewrite reduce_cons.
    change (query_step acc (k, v))
      with (ToString v ≫= fun t => Ok (acc +:+ k +:+ "=" +:+ t +:+ "&")).
    destruct (ToString v) as [t|e]; [| eauto].
    rewrite !bind_Ok. apply IH.
Qed.

(** X1. The path substitution is all or nothing: when some value of the
    map has no string form, the result is the original template, also
    when placeholders of earlier entries had already been substituted;
    when every value has one, the [try] block returns and its value is
    the result. *)
Theorem path_all_or_nothing (template : string) (entries : JsMap) :
  (Exists unstringifiable entries ->
     serializePathParams template (Some entries) = Ok template)
  /\ (Forall (fun entry => ~ unstringifiable entry) entries ->
        exists s, serializePathParams_try template (Some entries) = Ok s
                  /\ serializePathParams template (Some entries) = Ok s).
Proof.
  split.
  - intros H. unfold serializePathParams, serializePathParams_try. cbn [or_empty].
    destruct (reduce_path_throws entries template H) as [e ->]. reflexivity.
  - intros H. unfold serializePathParams, serializePathParams_try. cbn [or_empty].
    destruct (reduce_path_ok entries template H) as [s ->]. now exists s.
Qed.

Lemma path_all_or_nothing_witness :
  Exists unstringifiable [("id", JNum 7); ("tab", JSymbol "t")]
  /\ serializePathParams "/users/{id}/{tab}" (Some [("id", JNum 7); ("tab", JSymbol "t")])
     = Ok "/users/{id}/{tab}"
  /\ serializePathParams "/users/{id}/{tab}" (Some [("id", JNum 7)])
     = Ok "/users/7/{tab}".
Proof.
  assert (H : Exists unstringifiable [("id", JNum 7); ("tab", JSymbol "t")]).
  { apply Exists_cons_tl, Exists_cons_hd. now exists TypeError. }
  split; [exact H |]. split; [| reflexivity].
  exact (proj1 (path_all_or_nothing "/users/{id}/{tab}" _) H).
Defined.

(** X2. One value without a string form anywhere in the query map makes
    the whole query string empty: the parameters before and after it are
    dropped as well. *)
Theorem query_all_or_nothing (entries : JsMap) :
  Exists unstringifiable entries ->
  serializeQueryParams (Some entries) = Ok "".
Proof.
  intros H. unfold serializeQueryParams, serializeQueryParams_try. cbn [or_empty].
  destruct (reduce_query_throws entries "?" H) as [e ->]. reflexivity.
Qed.

Lemma query_all_or_nothing_witness :
  Exists unstringifiable [("a", JNum 1); ("b", JSymbol "s"); ("c", JNum 3)]
  /\ serializeQueryParams (Some [("a", JNum 1); ("b", JSymbol "s"); ("c", JNum 3)])
     = Ok "".
Proof.
  assert (H : Exists unstringifiable [("a", JNum 1); ("b", JSymbol "s"); ("c", JNum 3)]).
  { apply Exists_cons_tl, Exists_cons_hd. now exists TypeError. }
  split; [exact H |].
  exact (query_all_or_nothing _ H).
Defined.

Lemma join_cons (sep a b : string) (l : list string) :
  join sep (a :: b :: l) = a +:+ sep +:+ join sep (b :: l).
Proof. reflexivity. Qed.

Lemma append_entries_join (seed : string) (form : string * string)
    (forms : list (string * string)) :
  append_entries seed (form :: forms)
  = seed +:+ join "&" (map pair_text (form :: forms)) +:+ "&".
Proof.
  revert seed form. induction forms as [|g forms IH]; intros seed form.
  - unfold append_entries, pair_text. cbn [fold_left map join].
    now rewrite !append_assoc.
  - change (append_entries seed (form :: g :: forms))
      with (append_entries (seed +:+ fst form +:+ "=" +:+ snd form +:+ "&") (g :: forms)).
    rewrite IH. cbn [map]. rewrite (join_cons "&" (pair_text form)).
    unfold pair_text at 3. now rewrite !append_assoc.
Qed.

(** X3. For a map with at least one entry whose values all have string
    forms, the query string is [?] followed by the texts [key=value]
    joined by [&]: neither keys nor values are encoded or escaped. *)
Theorem query_joined (query : option JsMap) (forms : list (string * string)) :
  Forall2 coerces (or_empty query) forms ->
  forms <> [] ->
  serializeQueryParams query = Ok ("?" +:+ join "&" (map pair_text forms)).
Proof.
  intros H Hne. unfold serializeQueryParams, serializeQueryParams_try.
  rewrite (reduce_query_step _ _ _ H), bind_Ok. cbn [Res.try_catch].
  destruct forms as [|form forms]; [done |].
  rewrite append_entries_join, <- append_assoc.
  f_equal. apply (slice_0_m1_snoc _ "&"%char).
Qed.

Lemma query_joined_witness :
  Forall2 coerces (or_empty (Some [("q", JStr "a&b"); ("page", JNum 2); ("tags", JArr [JStr "x"; JStr "y"])]))
    [("q", "a&b"); ("page", "2"); ("tags", "x,y")]
  /\ serializeQueryParams
       (Some [("q", JStr "a&b"); ("page", JNum 2); ("tags", JArr [JStr "x"; JStr "y"])])
     = Ok "?q=a&b&page=2&tags=x,y".
Proof.
  assert (H : Forall2 coerces
                (or_empty (Some [("q", JStr "a&b"); ("page", JNum 2);
                                 ("tags", JArr [JStr "x"; JStr "y"])]))
                [("q", "a&b"); ("page", "2"); ("tags", "x,y")]).
  { repeat constructor. }
  split; [exact H |].
  exact (query_joined _ _ H ltac:(discriminate)).
Defined.

(** X4. Only the first entry of the content map counts: when its key is
    not the empty string, the entries after it change neither the
    content type nor the body. *)
Theorem body_first_entry_only (k : string) (v : JsValue) (rest : JsMap) :
  k <> "" ->
  serializeRequestBody (Some ((k, v) :: rest)) = serializeRequestBody (Some [(k, v)]).
Proof.
  intros Hk. unfold serializeRequestBody, serializeRequestBody_try.
  cbn [or_empty Object_keys map fst first_key_or_default read_content].
  destruct (String.eqb_spec k "") as [->|_]; [done |].
  now rewrite !get_prop_head.
Qed.

Lemma body_first_entry_only_witness :
  "text/plain" <> ""
  /\ serializeRequestBody (Some [("text/plain", JStr "hi"); ("application/json", JNum 1)])
     = Ok {| contentType := "text/plain"; requestBody := Some (q "hi") |}.
Proof.
  split; [discriminate |].
  exact (body_first_entry_only "text/plain" (JStr "hi") [("application/json", JNum 1)]
           ltac:(discriminate)).
Defined.

(** X5. When [JSON.stringify] throws on the selected payload, the
    fallback replaces the content type as well: the result is
    [application/json] with the body of an empty object, whatever the
    first key was. *)
Theorem body_fallback_resets_content_type (k : string) (v : JsValue) (rest : JsMap)
    (e : Exn) :
  k <> "" ->
  truthy v = true ->
  JSON_stringify v = Throw e ->
  serializeRequestBody (Some ((k, v) :: rest)) = Ok default_body.
Proof.
  intros Hk Hv He. unfold serializeRequestBody, serializeRequestBody_try.
  cbn [or_empty Object_keys map fst first_key_or_default read_content].
  destruct (String.eqb_spec k "") as [->|_]; [done |].
  rewrite get_prop_head, bind_Ok, Hv, He. reflexivity.
Qed.

Lemma body_fallback_resets_content_type_witness :
  "text/plain" <> ""
  /\ serializeRequestBody (Some [("text/plain", JArr [JBigInt 10])]) = Ok default_body.
Proof.
  split; [discriminate |].
  exact (body_fallback_resets_content_type "text/plain" (JArr [JBigInt 10]) [] TypeError
           ltac:(discriminate) eq_refl eq_refl).
Defined.
End SerializerExtras.

(* ================================================================== *)
(** ** Further properties of the pipeline *)
(* ================================================================== *)

Section PipelineExtras.
Import Methods Serializer.

Lemma response_throw_inv (r : Response) (e : Exn) :
  response r = Throw e -> is_Some (Response_body r) /\ Response_json r = Throw e.
Proof.
  unfold response. destruct (Response_body r); [| discriminate].
  destruct (Response_json r); cbn; [discriminate |]. intros [= <-]. eauto.
Qed.

Lemma for_afterwares_response (aws : list Afterware) (i : nat) (r : Ref) (resp : Response)
    (w : World) :
  Forall (fun ev => ev_response ev = Some resp) (events (for_afterwares i aws r resp w)).
Proof.
  revert i w. induction aws as [|aw rest IH]; intros i w; [constructor |].
  cbn [for_afterwares]. rewrite bind_run.
  destruct (aw r resp w) as [[[]|e] w'] eqn:Eaw;
    rewrite (await_afterware_eq i _ _ _ _ _ _ Eaw); cbn [result final events app].
  - constructor; [reflexivity | apply IH].
  - constructor; [reflexivity | constructor].
Qed.

(** A transport that rejects ends the run after the middlewares. *)
Lemma request_transport_fault (c : Client) (url : string) (r : Ref) (w : World)
    (info : string) (r' : Ref) (seen : RequestInit) (e : Exn) :
  EvTransport info r' seen (Throw e) ∈ events (request c url (Some r) w) ->
  result (request c url (Some r) w) = Throw e
  /\ map step_of (events (request c url (Some r) w))
     = map SMiddleware (seq 0 (length (middlewares c))) ++ [STransport].
Proof.
  rewrite request_run. cbv zeta.
  set (inf := baseUrl c +:+ url).
  pose proof (for_middlewares_shape (middlewares c) 0 inf r w) as Hm.
  cbv zeta in Hm. destruct Hm as ((n & Hn & Hsm & Hnm) & _ & _).
  pose proof (steps_in _ _ _ _ (EvTransport info r' seen (Throw e)) Hsm) as Hmid.
  destruct (result (for_middlewares 0 (middlewares c) inf r w)) as [[]|e0] eqn:Erm.
  - specialize (Hnm eq_refl). subst n.
    set (wm := final (for_middlewares 0 (middlewares c) inf r w)) in *.
    rewrite await_fetcher_event.
    destruct (result (await_fetcher (fetcher c) inf r wm)) as [resp|e1];
      cbn [result events].
    + set (wf := final (await_fetcher (fetcher c) inf r wm)) in *.
      pose proof (for_afterwares_shape (afterwares c) 0 r resp inf wf) as Ha.
      cbv zeta in Ha. destruct Ha as ((k & _ & Hsa & _) & _ & _).
      pose proof (steps_in _ _ _ _ (EvTransport info r' seen (Throw e)) Hsa) as Haft.
      intros Hin. exfalso.
      destruct (result (for_afterwares 0 (afterwares c) r resp wf));
        cbn [events] in Hin;
        repeat (apply elem_of_app in Hin as [Hin|Hin]
                || apply elem_of_cons in Hin as [Hin|Hin]);
        try discriminate; try (now apply elem_of_nil in Hin);
        try (now destruct (Hmid Hin)); try (now destruct (Haft Hin)).
    + intros Hin.
      repeat (apply elem_of_app in Hin as [Hin|Hin]
              || apply elem_of_cons in Hin as [Hin|Hin]);
        try (now apply elem_of_nil in Hin); try (now destruct (Hmid Hin)).
      injection Hin as _ _ _ ->. split; [reflexivity |].
      rewrite map_app, Hsm. reflexivity.
  - cbn [result events]. intros Hin. now destruct (Hmid Hin).
Qed.

(** An afterware that raises ends the run before the decoding. *)
Lemma request_afterware_fault (c : Client) (url : string) (r : Ref) (w : World)
    (j : nat) (r' : Ref) (seen : RequestInit) (resp' : Response) (e : Exn) :
  EvAfterware j r' seen resp' (Throw e) ∈ events (request c url (Some r) w) ->
  result (request c url (Some r) w) = Throw e
  /\ map step_of (events (request c url (Some r) w))
     = map SMiddleware (seq 0 (length (middlewares c)))
       ++ STransport :: map SAfterware (seq 0 (S j)).
Proof.
  rewrite request_run. cbv zeta.
  set (inf := baseUrl c +:+ url).
  pose proof (for_middlewares_shape (middlewares c) 0 inf r w) as Hm.
  cbv zeta in Hm. destruct Hm as ((n & Hn & Hsm & Hnm) & _ & _).
  pose proof (steps_in _ _ _ _ (EvAfterware j r' seen resp' (Throw e)) Hsm) as Hmid.
  destruct (result (for_middlewares 0 (middlewares c) inf r w)) as [[]|e0] eqn:Erm.
  2:{ cbn [result events]. intros Hin. now destruct (Hmid Hin). }
  specialize (Hnm eq_refl). subst n.
  set (wm := final (for_middlewares 0 (middlewares c) inf r w)) in *.
  rewrite await_fetcher_event.
  destruct (result (await_fetcher (fetcher c) inf r wm)) as [resp|e1];
    cbn [result events].
  2:{ intros Hin.
      repeat (apply elem_of_app in Hin as [Hin|Hin]
              || apply elem_of_cons in Hin as [Hin|Hin]);
        try discriminate; try (now apply elem_of_nil in Hin);
        try (now destruct (Hmid Hin)). }
  set (wf := final (await_fetcher (fetcher c) inf r wm)) in *.
  pose proof (for_afterwares_shape (afterwares c) 0 r resp inf wf) as Ha.
  cbv zeta in Ha. destruct Ha as ((k & _ & Hsa & _) & _ & Hoa).
  destruct (result (for_afterwares 0 (afterwares c) r resp wf)) as [[]|e2];
    cbn [result events]; intros Hin.
  - exfalso.
    repeat (apply elem_of_app in Hin as [Hin|Hin]
            || apply elem_of_cons in Hin as [Hin|Hin]);
      try discriminate; try (now apply elem_of_nil in Hin);
      try (now destruct (Hmid Hin)).
    rewrite Forall_forall in Hoa. now specialize (Hoa _ Hin).
  - destruct Hoa as (pre & last & Hev & Hpre & Hlast).
    repeat (apply elem_of_app in Hin as [Hin|Hin]
            || apply elem_of_cons in Hin as [Hin|Hin]);
      try discriminate; try (now apply elem_of_nil in Hin);
      try (now destruct (Hmid Hin)).
    rewrite Hev in Hin. apply elem_of_app in Hin as [Hin|Hin].
    + rewrite Forall_forall in Hpre. now specialize (Hpre _ Hin).
    + apply list_elem_of_singleton in Hin. subst last. cbn in Hlast.
      injection Hlast as ->. split; [reflexivity |].
      rewrite !map_app. cbn [map step_of app]. rewrite Hsm, Hsa.
      rewrite Hev, map_app in Hsa. cbn [map step_of] in Hsa.
      symmetry in Hsa. apply seq_snoc_inj in Hsa; [| now intros ? ? [= ->]].
      cbn in Hsa. now subst k.
Qed.

(** A decoding that rejects comes after every hook has run. *)
Lemma request_decode_fault (c : Client) (url : string) (r : Ref) (w : World)
    (resp' : Response) (e : Exn) :
  EvDecode resp' (Throw e) ∈ events (request c url (Some r) w) ->
  result (request c url (Some r) w) = Throw e
  /\ map step_of (events (request c url (Some r) w)) = pipeline_order c
  /\ response resp' = Throw e.
Proof.
  rewrite request_run. cbv zeta.
  set (inf := baseUrl c +:+ url).
  pose proof (for_middlewares_shape (middlewares c) 0 inf r w) as Hm.
  cbv zeta in Hm. destruct Hm as ((n & Hn & Hsm & Hnm) & _ & _).
  pose proof (steps_in _ _ _ _ (EvDecode resp' (Throw e)) Hsm) as Hmid.
  destruct (result (for_middlewares 0 (middlewares c) inf r w)) as [[]|e0] eqn:Erm.
  2:{ cbn [result events]. intros Hin. now destruct (Hmid Hin). }
  specialize (Hnm eq_refl). subst n.
  set (wm := final (for_middlewares 0 (middlewares c) inf r w)) in *.
  rewrite await_fetcher_event.
  destruct (result (await_fetcher (fetcher c) inf r wm)) as [resp|e1];
    cbn [result events].
  2:{ intros Hin.
      repeat (apply elem_of_app in Hin as [Hin|Hin]
              || apply elem_of_cons in Hin as [Hin|Hin]);
        try discriminate; try (now apply elem_of_nil in Hin);
        try (now destruct (Hmid Hin)). }
  set (wf := final (await_fetcher (fetcher c) inf r wm)) in *.
  pose proof (for_afterwares_shape (afterwares c) 0 r resp inf wf) as Ha.
  cbv zeta in Ha. destruct Ha as ((k & _ & Hsa & Hka) & _ & _).
  pose proof (steps_in _ _ _ _ (EvDecode resp' (Throw e)) Hsa) as Haft.
  destruct (result (for_afterwares 0 (afterwares c) r resp wf)) as [[]|e2];
    cbn [result events]; intros Hin;
    repeat (apply elem_of_app in Hin as [Hin|Hin]
            || apply elem_of_cons in Hin as [Hin|Hin]);
    try discriminate; try (now apply elem_of_nil in Hin);
    try (now destruct (Hmid Hin)); try (now destruct (Haft Hin)).
  injection Hin as -> Hresp. specialize (Hka eq_refl). subst k.
  split; [now symmetry |]. split; [| now symmetry].
  rewrite !map_app. cbn [map step_of app]. now rewrite Hsm, Hsa.
Qed.
Lemma middleware_step_no_response (ev : Event) (j : nat) :
  step_of ev = SMiddleware j -> ev_response ev = None.
Proof. now destruct ev. Qed.

(** What a call that resolves returns. *)
Lemma request_resolved (c : Client) (url : string) (r : Ref) (w : World) (env : Envelope) :
  result (request c url (Some r) w) = Ok env ->
  response (requestResponse env) = Ok env
  /\ (exists seen, EvTransport (baseUrl c +:+ url) r seen (Ok (requestResponse env))
                     ∈ events (request c url (Some r) w))
  /\ Forall (fun ev => forall resp, ev_response ev = Some resp -> resp = requestResponse env)
       (events (request c url (Some r) w)).
Proof.
  rewrite request_run. cbv zeta.
  set (inf := baseUrl c +:+ url).
  pose proof (for_middlewares_shape (middlewares c) 0 inf r w) as Hm.
  cbv zeta in Hm. destruct Hm as ((n & _ & Hsm & _) & _ & _).
  destruct (result (for_middlewares 0 (middlewares c) inf r w)) as [[]|e0];
    [| discriminate].
  set (wm := final (for_middlewares 0 (middlewares c) inf r w)) in *.
  rewrite await_fetcher_event.
  destruct (result (await_fetcher (fetcher c) inf r wm)) as [resp|e1];
    [| discriminate].
  set (wf := final (await_fetcher (fetcher c) inf r wm)) in *.
  pose proof (for_afterwares_response (afterwares c) 0 r resp wf) as Hresp.
  destruct (result (for_afterwares 0 (afterwares c) r resp wf)) as [[]|e2];
    [| discriminate].
  cbn [result events]. intros Henv.
  pose proof (response_requestResponse _ _ Henv) as ->.
  split; [exact Henv |]. split.
  - exists (deref wm r). apply elem_of_app. right. apply list_elem_of_here.
  - apply Forall_app. split.
    + rewrite Forall_forall. intros ev Hin resp' Hev.
      destruct (steps_in _ _ _ _ ev Hsm Hin) as [j Hj].
      now rewrite (middleware_step_no_response _ _ Hj) in Hev.
    + constructor; [now intros ? [= <-] |].
      apply Forall_app. split.
      * eapply Forall_impl; [exact Hresp |]. cbn. intros ev -> ?. now intros [= <-].
      * constructor; [now intros ? [= <-] | constructor].
Qed.

(** The transport is given the descriptor as the middlewares left it. *)
Lemma request_transport_seen (c : Client) (url : string) (r : Ref) (w : World)
    (info : string) (r' : Ref) (seen : RequestInit) (out : Result Response) :
  EvTransport info r' seen out ∈ events (request c url (Some r) w) ->
  info = baseUrl c +:+ url /\ r' = r
  /\ seen = deref (chain_world (middlewares c) (baseUrl c +:+ url) r w) r.
Proof.
  rewrite request_run. cbv zeta.
  set (inf := baseUrl c +:+ url).
  pose proof (for_middlewares_shape (middlewares c) 0 inf r w) as Hm.
  cbv zeta in Hm. destruct Hm as ((n & _ & Hsm & _) & _ & _).
  pose proof (steps_in _ _ _ _ (EvTransport info r' seen out) Hsm) as Hmid.
  pose proof (for_middlewares_chain (middlewares c) 0 inf r w) as Hchain.
  destruct (result (for_middlewares 0 (middlewares c) inf r w)) as [[]|e0].
  2:{ cbn [events]. intros Hin. now destruct (Hmid Hin). }
  rewrite (Hchain eq_refl). rewrite await_fetcher_event.
  set (wm := chain_world (middlewares c) inf r w) in *.
  destruct (result (await_fetcher (fetcher c) inf r wm)) as [resp|e1] eqn:Erf;
    cbn [result events].
  - set (wf := final (await_fetcher (fetcher c) inf r wm)) in *.
    pose proof (for_afterwares_shape (afterwares c) 0 r resp inf wf) as Ha.
    cbv zeta in Ha. destruct Ha as ((k & _ & Hsa & _) & _ & _).
    pose proof (steps_in _ _ _ _ (EvTransport info r' seen out) Hsa) as Haft.
    intros Hin.
    destruct (result (for_afterwares 0 (afterwares c) r resp wf));
      cbn [events] in Hin;
      repeat (apply elem_of_app in Hin as [Hin|Hin]
              || apply elem_of_cons in Hin as [Hin|Hin]);
      try discriminate; try (now apply elem_of_nil in Hin);
      try (now destruct (Hmid Hin)); try (now destruct (Haft Hin));
      now injection Hin as -> -> -> _.
  - intros Hin.
    repeat (apply elem_of_app in Hin as [Hin|Hin]
            || apply elem_of_cons in Hin as [Hin|Hin]);
      try (now apply elem_of_nil in Hin); try (now destruct (Hmid Hin));
      now injection Hin as -> -> -> _.
Qed.

Lemma headers_literal_absorbs (contentType : string) (hs : gmap string HeaderValue) :
  is_Some (hs !! "Content-Type") ->
  headers_literal contentType (Some (PlainHeaders hs)) = hs.
Proof.
  intros [x Hx]. apply map_eq. intros k. rewrite headers_literal_plain.
  destruct (hs !! k) eqn:E; [reflexivity |].
  case_decide; [subst k; congruence | reflexivity].
Qed.
End PipelineExtras.

(* ================================================================== *)
(** ** Further properties of a call *)
(* ================================================================== *)

Section CallExtras.
Import Methods Serializer.

(** X6. When the transport rejects, the call rejects with exactly that
    error; every middleware has run before it, and neither an afterware
    nor the decoding runs after it. *)
Theorem transport_fault_halts (v : RestMethod) (c : Client) (urlPath : string)
    (options : RequestOptions) (requestInit : option Ref) (w : World)
    (info : string) (r : Ref) (seen : RequestInit) (e : Exn) :
  EvTransport info r seen (Throw e)
    ∈ events (verb v c urlPath options requestInit w) ->
  result (verb v c urlPath options requestInit w) = Throw e
  /\ map step_of (events (verb v c urlPath options requestInit w))
     = map SMiddleware (seq 0 (length (middlewares c))) ++ [STransport].
Proof.
  destruct (verb_enters_pipeline v c urlPath options requestInit w)
    as (sb & p & q & _ & _ & _ & ->).
  apply request_transport_fault.
Qed.

Lemma transport_fault_halts_witness :
  result (post offline_client "/items" item_options None one_object)
  = Throw (UserError "offline")
  /\ map step_of (events (post offline_client "/items" item_options None one_object))
     = [SMiddleware 0; STransport]
  /\ effects (final (post offline_client "/items" item_options None one_object)) = ["m1"].
Proof.
  assert (Hin : EvTransport "https://api.test/items" 2%positive
                  (built_descriptor M_post
                     {| contentType := "application/json";
                        requestBody := Some ("{" +:+ q "x" +:+ ":1}") |}
                     empty_object)
                  (Throw (UserError "offline"))
                ∈ events (verb M_post offline_client "/items" item_options None one_object)).
  { vm_compute. apply list_elem_of_further, list_elem_of_here. }
  pose proof (transport_fault_halts M_post offline_client "/items" item_options None
                one_object _ _ _ _ Hin) as (Hres & Hsteps).
  split; [exact Hres |]. split; [exact Hsteps | reflexivity].
Defined.

(** X7. When an afterware raises, the call rejects with exactly that
    error although the transport has resolved: the steps are all the
    middlewares, the transport, and the afterwares up to the raising
    one; the later afterwares and the decoding do not run. *)
Theorem afterware_fault_halts (v : RestMethod) (c : Client) (urlPath : string)
    (options : RequestOptions) (requestInit : option Ref) (w : World)
    (j : nat) (r : Ref) (seen : RequestInit) (resp : Response) (e : Exn) :
  EvAfterware j r seen resp (Throw e)
    ∈ events (verb v c urlPath options requestInit w) ->
  result (verb v c urlPath options requestInit w) = Throw e
  /\ map step_of (events (verb v c urlPath options requestInit w))
     = map SMiddleware (seq 0 (length (middlewares c)))
       ++ STransport :: map SAfterware (seq 0 (S j)).
Proof.
  destruct (verb_enters_pipeline v c urlPath options requestInit w)
    as (sb & p & q & _ & _ & _ & ->).
  apply request_afterware_fault.
Qed.

Lemma afterware_fault_halts_witness :
  result (get audited_client "/items" no_options None one_object)
  = Throw (UserError "audit")
  /\ map step_of (events (get audited_client "/items" no_options None one_object))
     = [SMiddleware 0; STransport; SAfterware 0; SAfterware 1]
  /\ effects (final (get audited_client "/items" no_options None one_object))
     = ["m1"; "<transport>"; "a1"].
Proof.
  assert (Hin : EvAfterware 1 2%positive
                  (built_descriptor M_get default_body empty_object)
                  no_content (Throw (UserError "audit"))
                ∈ events (verb M_get audited_client "/items" no_options None one_object)).
  { vm_compute. do 3 apply list_elem_of_further. apply list_elem_of_here. }
  pose proof (afterware_fault_halts M_get audited_client "/items" no_options None
                one_object _ _ _ _ _ Hin) as (Hres & Hsteps).
  split; [exact Hres |]. split; [exact Hsteps | reflexivity].
Defined.

(** X8. When the decoding rejects, the call rejects with exactly that
    error after every middleware, the transport and every afterware has
    run; this happens only for a response that has a body whose
    [json()] rejects, with that same error. *)
Theorem decode_fault_after_hooks (v : RestMethod) (c : Client) (urlPath : string)
    (options : RequestOptions) (requestInit : option Ref) (w : World)
    (resp : Response) (e : Exn) :
  EvDecode resp (Throw e) ∈ events (verb v c urlPath options requestInit w) ->
  result (verb v c urlPath options requestInit w) = Throw e
  /\ map step_of (events (verb v c urlPath options requestInit w)) = pipeline_order c
  /\ is_Some (Response_body resp)
  /\ Response_json resp = Throw e.
Proof.
  destruct (verb_enters_pipeline v c urlPath options requestInit w)
    as (sb & p & q & _ & _ & _ & ->).
  intros Hin. apply request_decode_fault in Hin as (Hres & Hsteps & Hresp).
  split; [exact Hres |]. split; [exact Hsteps |].
  now apply response_throw_inv.
Qed.

Lemma decode_fault_after_hooks_witness :
  result (get html_client "/items" no_options None one_object) = Throw SyntaxError
  /\ map step_of (events (get html_client "/items" no_options None one_object))
     = [SMiddleware 0; STransport; SAfterware 0; SDecode]
  /\ effects (final (get html_client "/items" no_options None one_object))
     = ["m1"; "<transport>"; "a1"].
Proof.
  assert (Hin : EvDecode html_response (Throw SyntaxError)
                ∈ events (verb M_get html_client "/items" no_options None one_object)).
  { vm_compute. do 3 apply list_elem_of_further. apply list_elem_of_here. }
  pose proof (decode_fault_after_hooks M_get html_client "/items" no_options None
                one_object _ _ Hin) as (Hres & Hsteps & _).
  split; [exact Hres |]. split; [exact Hsteps | reflexivity].
Defined.

(** X9. A call that resolves returns the decoding of the very response
    the transport resolved to: that response is the one every afterware
    was given and the one in the envelope, and what the hooks return is
    not part of the result. *)
Theorem resolved_call_envelope (v : RestMethod) (c : Client) (urlPath : string)
    (options : RequestOptions) (requestInit : option Ref) (w : World) (env : Envelope) :
  result (verb v c urlPath options requestInit w) = Ok env ->
  response (requestResponse env) = Ok env
  /\ (exists info r seen,
        EvTransport info r seen (Ok (requestResponse env))
          ∈ events (verb v c urlPath options requestInit w))
  /\ Forall (fun ev => forall resp, ev_response ev = Some resp -> resp = requestResponse env)
       (events (verb v c urlPath options requestInit w)).
Proof.
  destruct (verb_enters_pipeline v c urlPath options requestInit w)
    as (sb & p & q & _ & _ & _ & ->).
  intros H. apply request_resolved in H as (Hdec & [seen Hin] & Hall).
  split; [exact Hdec |]. split; [eauto | exact Hall].
Qed.

Lemma resolved_call_envelope_witness :
  result (get json_client "/items" no_options None one_object)
  = Ok {| data := JObj [("id", JNum 7)]; requestResponse := json_response |}
  /\ response json_response
     = Ok {| data := JObj [("id", JNum 7)]; requestResponse := json_response |}.
Proof.
  assert (H : result (verb M_get json_client "/items" no_options None one_object)
              = Ok {| data := JObj [("id", JNum 7)]; requestResponse := json_response |}).
  { reflexivity. }
  split; [exact H |].
  exact (proj1 (resolved_call_envelope M_get json_client "/items" no_options None
                  one_object _ H)).
Defined.

(** X10. Without an overrides argument the descriptor is a new object:
    no object of the caller is written by the verb method, and the
    contents of the descriptor (the method, a [Content-Type] header as
    only header, the body except for GET) and the URL depend on the verb,
    the path and the options only, so that two calls with the same
    inputs start from equal descriptors. *)
Theorem no_overrides_fresh_descriptor (v : RestMethod) (urlPath : string)
    (options : RequestOptions) :
  exists sb p q,
    serializeRequestBody (content options) = Ok sb
    /\ serializePathParams urlPath (path options) = Ok p
    /\ serializeQueryParams (query options) = Ok q
    /\ forall (c : Client) (w : World),
         heap w !! fresh (dom (heap w)) = None
         /\ verb v c urlPath options None w
            = request c (p +:+ q) (Some (fresh (dom (heap w))))
                (with_object w (fresh (dom (heap w)))
                   {| method := Some (method_name v);
                      headers := Some (PlainHeaders
                                         {[ "Content-Type" := HVStr (contentType sb) ]});
                      body := match v with
                              | M_get => None
                              | _ => requestBody sb
                              end;
                      other := ∅ |})
         /\ first_seen (verb v c urlPath options None w)
            = Some {| method := Some (method_name v);
                      headers := Some (PlainHeaders
                                         {[ "Content-Type" := HVStr (contentType sb) ]});
                      body := match v with
                              | M_get => None
                              | _ => requestBody sb
                              end;
                      other := ∅ |}.
Proof.
  destruct (serializers_total urlPath (path options) (query options) (content options))
    as ([p Hp] & [q Hq] & [sb Hsb]).
  exists sb, p, q. repeat split; try assumption.
  - apply not_elem_of_dom, is_fresh.
  - destruct (verb_enters_pipeline v c urlPath options None w)
      as (sb' & p' & q' & Hsb' & Hp' & Hq' & ->).
    rewrite Hsb in Hsb'. rewrite Hp in Hp'. rewrite Hq in Hq'.
    injection Hsb' as <-. injection Hp' as <-. injection Hq' as <-.
    cbn [target fst snd]. rewrite deref_with_object.
    unfold built_descriptor. cbn [headers body other empty_object].
    rewrite headers_literal_none. now destruct v.
  - destruct (verb_first_seen v c urlPath options None w) as (sb' & Hsb' & ->).
    rewrite Hsb in Hsb'. injection Hsb' as <-.
    cbn [target fst snd]. rewrite deref_with_object.
    unfold built_descriptor. cbn [headers body other empty_object].
    rewrite headers_literal_none. now destruct v.
Qed.

(** X11. The headers of an overrides object stick: when the object is,
    at a second call, as a first call through it built it, the headers
    of the second descriptor are those of the first one, so the
    [Content-Type] computed from the second content never appears. *)
Theorem headers_stick (v1 v2 : RestMethod) (c1 c2 : Client) (u1 u2 : string)
    (o1 o2 : RequestOptions) (r : Ref) (w1 w2 : World) (D1 : RequestInit) :
  first_seen (verb v1 c1 u1 o1 (Some r) w1) = Some D1 ->
  deref w2 r = D1 ->
  exists D2,
    first_seen (verb v2 c2 u2 o2 (Some r) w2) = Some D2
    /\ headers D2 = headers D1.
Proof.
  intros H1 Hw2.
  destruct (verb_first_seen v1 c1 u1 o1 (Some r) w1) as (sb1 & _ & H1').
  rewrite H1 in H1'. injection H1' as ->.
  destruct (verb_first_seen v2 c2 u2 o2 (Some r) w2) as (sb2 & _ & H2).
  eexists. split; [exact H2 |].
  cbn [target fst snd]. rewrite Hw2.
  unfold built_descriptor at 1. cbn [headers].
  unfold built_descriptor at 1 2. cbn [headers].
  rewrite headers_literal_absorbs; [reflexivity |].
  apply headers_literal_has_content_type.
Qed.

Lemma headers_stick_witness :
  headers <$> first_seen (post plain_client "/notes" text_options (Some 1%positive)
                            one_object)
  = Some (Some (PlainHeaders {[ "Content-Type" := HVStr "text/plain" ]}))
  /\ headers <$> first_seen
                   (post plain_client "/items" item_options (Some 1%positive)
                      (final (post plain_client "/notes" text_options (Some 1%positive)
                                one_object)))
     = Some (Some (PlainHeaders {[ "Content-Type" := HVStr "text/plain" ]})).
Proof.
  assert (H1 : first_seen (verb M_post plain_client "/notes" text_options
                             (Some 1%positive) one_object)
               = Some (built_descriptor M_post
                         {| contentType := "text/plain"; requestBody := Some (q "hi") |}
                         empty_object)).
  { reflexivity. }
  assert (H2 : deref (final (post plain_client "/notes" text_options (Some 1%positive)
                               one_object)) 1%positive
               = built_descriptor M_post
                   {| contentType := "text/plain"; requestBody := Some (q "hi") |}
                   empty_object).
  { reflexivity. }
  split; [reflexivity |].
  destruct (headers_stick M_post M_post plain_client plain_client "/notes" "/items"
              text_options item_options 1%positive one_object _ _ H1 H2)
    as (D2 & Hseen & Hheaders).
  change (verb M_post) with post in Hseen. rewrite Hseen. cbn [fmap option_fmap option_map].
  rewrite Hheaders. reflexivity.
Defined.

(** X12. PUT, POST and DELETE build the same request up to the method:
    for the same arguments their descriptors have the same headers, the
    same body and the same other options, and each carries the name of
    its verb. *)
Theorem body_verbs_agree (v1 v2 : RestMethod) (c : Client) (urlPath : string)
    (options : RequestOptions) (requestInit : option Ref) (w : World) :
  v1 <> M_get -> v2 <> M_get ->
  exists D1 D2,
    first_seen (verb v1 c urlPath options requestInit w) = Some D1
    /\ first_seen (verb v2 c urlPath options requestInit w) = Some D2
    /\ method D1 = Some (method_name v1)
    /\ method D2 = Some (method_name v2)
    /\ headers D1 = headers D2
    /\ body D1 = body D2
    /\ other D1 = other D2.
Proof.
  intros Hv1 Hv2.
  destruct (verb_first_seen v1 c urlPath options requestInit w) as (sb1 & Hsb1 & H1).
  destruct (verb_first_seen v2 c urlPath options requestInit w) as (sb2 & Hsb2 & H2).
  rewrite Hsb1 in Hsb2. injection Hsb2 as <-.
  eexists _, _. split; [exact H1 |]. split; [exact H2 |].
  destruct v1, v2; try done; repeat split.
Qed.

Lemma body_verbs_agree_witness :
  body <$> first_seen (put plain_client "/items" item_options None one_object)
  = Some (Some ("{" +:+ q "x" +:+ ":1}"))
  /\ body <$> first_seen (delete plain_client "/items" item_options None one_object)
     = Some (Some ("{" +:+ q "x" +:+ ":1}"))
  /\ method <$> first_seen (delete plain_client "/items" item_options None one_object)
     = Some (Some "DELETE").
Proof.
  destruct (body_verbs_agree M_put M_delete plain_client "/items" item_options None
              one_object ltac:(discriminate) ltac:(discriminate))
    as (D1 & D2 & H1 & H2 & _ & Hm & _ & Hb & _).
  change (verb M_put) with put in H1. change (verb M_delete) with delete in H2.
  rewrite H1, H2. cbn [fmap option_fmap option_map].
  rewrite Hm, <- Hb.
  vm_compute in H1. injection H1 as <-.
  split; [reflexivity | split; reflexivity].
Defined.
Lemma for_afterwares_nil (i : nat) (r : Ref) (resp : Response) (w : World) :
  for_afterwares i [] r resp w = {| result := Ok (); final := w; events := [] |}.
Proof. reflexivity. Qed.

(** X13. A client constructed from a configuration without middlewares
    and afterwares runs no hook: a call is one invocation of the
    transport, on the URL made of the base URL, the serialized path and
    the serialized query, followed by the decoding of its response; the
    call rejects with the error of the transport when it rejects. *)
Theorem hook_free_call (v : RestMethod) (fetch : Fetcher) (base urlPath : string)
    (options : RequestOptions) (requestInit : option Ref) (w : World) :
  let c := new_Client fetch
             {| config_baseUrl := base;
                config_middlewares := None;
                config_afterwares := None |} in
  exists sb p q,
    serializeRequestBody (content options) = Ok sb
    /\ serializePathParams urlPath (path options) = Ok p
    /\ serializeQueryParams (query options) = Ok q
    /\ let r := fst (target requestInit w) in
       let w1 := with_object w r
                   (built_descriptor v sb (deref (snd (target requestInit w)) r)) in
       let out := fetch (base +:+ p +:+ q) r w1 in
       result (verb v c urlPath options requestInit w) = (fst out ≫= response)
       /\ final (verb v c urlPath options requestInit w) = snd out
       /\ map step_of (events (verb v c urlPath options requestInit w))
          = match fst out with
            | Ok _ => [STransport; SDecode]
            | Throw _ => [STransport]
            end.
Proof.
  cbv zeta.
  destruct (verb_enters_pipeline v
              (new_Client fetch
                 {| config_baseUrl := base;
                    config_middlewares := None;
                    config_afterwares := None |})
              urlPath options requestInit w)
    as (sb & p & q & Hsb & Hp & Hq & ->).
  exists sb, p, q. repeat split; try assumption;
    rewrite request_run; cbv zeta;
    cbn [new_Client middlewares afterwares fetcher baseUrl config_baseUrl
         config_middlewares config_afterwares default];
    rewrite for_middlewares_nil; cbn [result final events app];
    destruct (fetch _ _ _) as [[resp|e] w'] eqn:Ef;
    rewrite (await_fetcher_eq _ _ _ _ _ _ Ef); cbn [result final events app fst snd];
    rewrite ?for_afterwares_nil; reflexivity.
Qed.

(** X14. The transport is given the object the verb method built, with
    the contents the middlewares left in it: what each middleware wrote
    into the descriptor, in registration order, is what the transport
    sees. *)
Theorem transport_sees_middleware_writes (v : RestMethod) (c : Client) (urlPath : string)
    (options : RequestOptions) (requestInit : option Ref) (w : World)
    (info : string) (r : Ref) (seen : RequestInit) (out : Result Response) :
  EvTransport info r seen out ∈ events (verb v c urlPath options requestInit w) ->
  exists sb p q,
    serializeRequestBody (content options) = Ok sb
    /\ serializePathParams urlPath (path options) = Ok p
    /\ serializeQueryParams (query options) = Ok q
    /\ info = baseUrl c +:+ p +:+ q
    /\ r = fst (target requestInit w)
    /\ seen = deref
                (chain_world (middlewares c) info r
                   (with_object w r
                      (built_descriptor v sb (deref (snd (target requestInit w)) r))))
                r.
Proof.
  destruct (verb_enters_pipeline v c urlPath options requestInit w)
    as (sb & p & q & Hsb & Hp & Hq & ->).
  intros Hin. apply request_transport_seen in Hin as (-> & -> & ->).
  exists sb, p, q. repeat split; assumption.
Qed.

Lemma transport_sees_middleware_writes_witness :
  EvTransport "https://api.test/items" 2%positive
    {| method := Some "GET";
       headers := Some (PlainHeaders
                          (<["Authorization" := HVStr "Bearer t"]>
                             {[ "Content-Type" := HVStr "application/json" ]}));
       body := None;
       other := ∅ |}
    (Ok no_content)
    ∈ events (get signing_client "/items" no_options None one_object)
  /\ deref (chain_world (middlewares signing_client) "https://api.test/items" 2%positive
              (with_object one_object 2%positive
                 (built_descriptor M_get default_body empty_object)))
       2%positive
     = {| method := Some "GET";
          headers := Some (PlainHeaders
                             (<["Authorization" := HVStr "Bearer t"]>
                                {[ "Content-Type" := HVStr "application/json" ]}));
          body := None;
          other := ∅ |}.
Proof.
  assert (Hin : EvTransport "https://api.test/items" 2%positive
                  {| method := Some "GET";
                     headers := Some (PlainHeaders
                                        (<["Authorization" := HVStr "Bearer t"]>
                                           {[ "Content-Type" := HVStr "application/json" ]}));
                     body := None;
                     other := ∅ |}
                  (Ok no_content)
                ∈ events (verb M_get signing_client "/items" no_options None one_object)).
  { vm_compute. do 2 apply list_elem_of_further. apply list_elem_of_here. }
  split; [exact Hin |].
  destruct (transport_sees_middleware_writes M_get signing_client "/items" no_options
              None one_object _ _ _ _ Hin)
    as (sb & p & q & Hsb & _ & _ & _ & _ & Hseen).
  vm_compute in Hsb. injection Hsb as <-.
  symmetry. exact Hseen.
Defined.
End CallExtras.
